(** * Royal Enfield Mechanic Assistant: ingestion and query pipeline

    A shallow embedding of [ingest_and_index.py], [app.py] and
    [vector_searchrest.py], and the properties of the identifier
    derivation, the text extraction, the vector query and the answer
    synthesis that the design document states.

    Conventions.
    - A Python [str] is a sequence of Unicode code points: [str := list N].
      This matters for [re.sub], which replaces one code point at a time.
    - A Python exception is the [Raise] outcome of a [result].
    - The remote services (embedding, search, completion, PDF parsing, text
      splitting) are parameters of the functions that call them. *)

From Stdlib Require Import ZArith NArith List String Ascii Bool Lia.
From Stdlib.Strings Require Import Byte.
From Stdlib Require Import Decimal DecimalString DecimalNat.
From Stdlib Require Import PrimFloat.
From Stdlib Require Finite.
Import ListNotations.

(* ------------------------------------------------------------------ *)
(** ** Python strings *)

Module PyStr.

Definition char : Type := N.
Definition str : Type := list char.

(** The code point of an ASCII character. *)
Definition ch (a : ascii) : char := N_of_ascii a.

(** An ASCII-only string literal of the source. *)
Fixpoint lit (s : string) : str :=
  match s with
  | EmptyString => []
  | String a s' => ch a :: lit s'
  end.

Fixpoint str_eqb (a b : str) : bool :=
  match a, b with
  | [], [] => true
  | x :: a', y :: b' => N.eqb x y && str_eqb a' b'
  | _, _ => false
  end.

(** [str(i)] and [f"{i}"] for a non-negative [int]: decimal digits, no
    leading zero, ["0"] for zero. *)
Definition str_of_int (n : nat) : str :=
  lit (NilEmpty.string_of_uint (Nat.to_uint n)).

(** [sep.join(parts)] *)
Fixpoint join (sep : str) (parts : list str) : str :=
  match parts with
  | [] => []
  | p :: rest =>
      match rest with
      | [] => p
      | _ :: _ => p ++ sep ++ join sep rest
      end
  end.

(** [s[a:b]] for [0 <= a <= b]. *)
Definition slice (s : str) (a b : Z) : str :=
  firstn (Z.to_nat (b - a)) (skipn (Z.to_nat a) s).

(** [s.rfind(c)] for a one-character [c]: the highest index holding [c],
    or [-1]. *)
Fixpoint rfind_from (c : char) (s : str) (i : Z) (found : Z) : Z :=
  match s with
  | [] => found
  | x :: s' => rfind_from c s' (i + 1) (if N.eqb x c then i else found)
  end.

Definition rfind (s : str) (c : char) : Z := rfind_from c s 0 (-1).

(** [s.endswith(suffix)] *)
Definition endswith (s suffix : str) : bool :=
  (List.length suffix <=? List.length s)%nat
  && str_eqb (skipn (List.length s - List.length suffix) s) suffix.

(** [s.lower()] on the ASCII letters.  The only other code points that
    Python lowers into ASCII are U+212A (to [k]) and U+0130 (to [i] and a
    combining dot); they are covered so that the suffix test of the
    ingestion, the one use of [lower], agrees with Python on every name. *)
Definition lower_char (c : char) : str :=
  if (65 <=? c)%N && (c <=? 90)%N then [(c + 32)%N]
  else if N.eqb c 8490 then [107%N]
  else if N.eqb c 304 then [105%N; 775%N]
  else [c].

Definition lower (s : str) : str := flat_map lower_char s.

(** [c.isspace()] *)
Definition isspace (c : char) : bool :=
  ((9 <=? c) && (c <=? 13) || (28 <=? c) && (c <=? 32)
   || N.eqb c 133 || N.eqb c 160 || N.eqb c 5760
   || (8192 <=? c) && (c <=? 8202)
   || N.eqb c 8232 || N.eqb c 8233 || N.eqb c 8239 || N.eqb c 8287
   || N.eqb c 12288)%N.

Fixpoint lstrip (s : str) : str :=
  match s with
  | [] => []
  | c :: s' => if isspace c then lstrip s' else s
  end.

(** [s.strip()] *)
Definition strip (s : str) : str :=
  List.rev (lstrip (List.rev (lstrip s))).

(** The decimal digits. *)
Definition is_digit (c : char) : Prop := (48 <= c <= 57)%N.

(** Truthiness of a [str]: only the empty string is false. *)
Definition truthy (s : str) : bool :=
  match s with [] => false | _ :: _ => true end.

End PyStr.

Import PyStr.
Arguments lit s%_string.
Arguments ch a%_char.

(* ------------------------------------------------------------------ *)
(** ** Exceptions *)

Inductive exn : Type :=
| PdfReadError
| HTTPError (status : Z)
| JSONDecodeError
| KeyError (key : str)
| TypeError
| AttributeError
| APIError.

Inductive result (A : Type) : Type :=
| Ok (a : A)
| Raise (e : exn).

Arguments Ok {A} a.
Arguments Raise {A} e.

Definition bind {A B} (c : result A) (k : A -> result B) : result B :=
  match c with
  | Ok a => k a
  | Raise e => Raise e
  end.

Notation "x <- c ;; k" := (bind c (fun x => k))
  (at level 61, c at next level, right associativity).

(** A list comprehension or [for] loop whose body may raise: the first
    exception ends it. *)
Fixpoint mapM {A B} (f : A -> result B) (l : list A) : result (list B) :=
  match l with
  | [] => Ok []
  | a :: l' => b <- f a ;; bs <- mapM f l' ;; Ok (b :: bs)
  end.

(** [enumerate(l)] is [enumerate_from 0 l]. *)
Fixpoint enumerate_from {A} (start : nat) (l : list A) : list (nat * A) :=
  match l with
  | [] => []
  | a :: l' => (start, a) :: enumerate_from (S start) l'
  end.

(* ------------------------------------------------------------------ *)
(** ** [os.path.splitext] *)

Module OsPath.

(** The [while] loop of [genericpath._splitext]: scan the file name from
    [filenameIndex] up to [dotIndex] for a character that is not the
    extension separator.  [fuel] bounds the iterations; the caller gives
    [dotIndex - filenameIndex], which the loop cannot exceed. *)
Fixpoint splitext_scan (fuel : nat) (p : str) (extsep : char)
    (filenameIndex dotIndex : Z) : bool :=
  match fuel with
  | O => false
  | S fuel' =>
      if (filenameIndex <? dotIndex)%Z then
        if negb (str_eqb (slice p filenameIndex (filenameIndex + 1)) [extsep])
        then true
        else splitext_scan fuel' p extsep (filenameIndex + 1) dotIndex
      else false
  end.

(** [genericpath._splitext(p, sep, altsep, extsep)] *)
Definition _splitext (p : str) (sep : char) (altsep : option char)
    (extsep : char) : str * str :=
  let sepIndex := rfind p sep in
  let sepIndex :=
    match altsep with
    | Some a => Z.max sepIndex (rfind p a)
    | None => sepIndex
    end in
  let dotIndex := rfind p extsep in
  if (sepIndex <? dotIndex)%Z
     && splitext_scan (Z.to_nat (dotIndex - (sepIndex + 1))) p extsep
          (sepIndex + 1) dotIndex
  then (slice p 0 dotIndex, skipn (Z.to_nat dotIndex) p)
  else (p, []).

(** [posixpath.splitext]: [sep = "/"], no [altsep], [extsep = "."]. *)
Definition splitext (p : str) : str * str := _splitext p (ch "/") None (ch ".").

End OsPath.

(* ------------------------------------------------------------------ *)
(** ** [re.sub] with a pattern that is one character class *)

Module Re.

Inductive class_item : Type :=
| CRange (lo hi : char)
| CLit (c : char).

Definition item_matches (it : class_item) (c : char) : bool :=
  match it with
  | CRange lo hi => (lo <=? c)%N && (c <=? hi)%N
  | CLit x => N.eqb c x
  end.

Record char_class : Type := { negated : bool; items : list class_item }.

Definition class_matches (cls : char_class) (c : char) : bool :=
  xorb (negated cls) (existsb (fun it => item_matches it c) (items cls)).

(** [re.sub(cls, repl, s)]: every character the class matches is replaced
    by [repl], the others are kept. *)
Definition sub (cls : char_class) (repl : str) (s : str) : str :=
  flat_map (fun c => if class_matches cls c then repl else [c]) s.

(** Whether [s] matches [^cls+$] in full: not empty, every character in
    the class. *)
Definition fullmatch_plus (cls : char_class) (s : str) : bool :=
  negb (match s with [] => true | _ => false end)
  && forallb (class_matches cls) s.

End Re.

(* ------------------------------------------------------------------ *)
(** ** JSON values, as [requests] and [json] hand them to Python *)

Local Unset Elimination Schemes.

Inductive json : Type :=
| JNull
| JBool (b : bool)
| JInt (n : Z)
| JFloat (x : float)
| JStr (s : str)
| JArr (elems : list json)
| JObj (fields : list (str * json)).

Local Set Elimination Schemes.

(** Lookup in a [dict] held as its items in insertion order. *)
Fixpoint dict_lookup (key : str) (fields : list (str * json)) : option json :=
  match fields with
  | [] => None
  | (k, v) :: rest => if str_eqb k key then Some v else dict_lookup key rest
  end.

Definition NL : str := [10%N].

(* ------------------------------------------------------------------ *)
(** ** ingest_and_index.py *)

Module Ingest.

Record blob : Type := { name : str; data : list Byte.byte }.

(** [{"id": ..., "text": ...}] *)
Record document : Type := { doc_id : str; doc_text : str }.

(** [{"id": ..., "content": ..., "contentVector": ...}] *)
Record index_record : Type :=
  { id : str; content : str; contentVector : list float }.

(** [page.extract_text() or ""], where [extract_text] gives [None] or a
    string. *)
Definition or_empty (t : option str) : str :=
  match t with
  | Some s => if truthy s then s else []
  | None => []
  end.

Definition is_pdf (b : blob) : bool := endswith (lower (name b)) (lit ".pdf").

Section Extract.

(** [PdfReader(io.BytesIO(data))] followed by [extract_text()] on each
    of [reader.pages]: the text of each page in page order ([None] for a
    page without text), or the exception PyPDF2 raises on bytes it
    cannot read. *)
Variable PdfReader : list Byte.byte -> result (list (option str)).

(** The body of the loop of [fetch_and_extract_pdfs] for one PDF blob. *)
Definition extract_blob (b : blob) : result document :=
  page_texts <- PdfReader (data b) ;;
  let pages := map or_empty page_texts in
  let full_text := join NL pages in
  Ok {| doc_id := name b; doc_text := full_text |}.

(** The [for blob in container.list_blobs()] loop; [docs] is the list
    built by [docs.append]. *)
Fixpoint fetch_loop (blobs : list blob) (docs : list document)
    : result (list document) :=
  match blobs with
  | [] => Ok docs
  | b :: rest =>
      if negb (is_pdf b) then fetch_loop rest docs
      else d <- extract_blob b ;; fetch_loop rest (docs ++ [d])
  end.

Definition fetch_and_extract_pdfs (container : list blob)
    : result (list document) :=
  fetch_loop container [].

End Extract.

(** [r"[^A-Za-z0-9_-]"] *)
Definition unsafe_char : Re.char_class :=
  {| Re.negated := true;
     Re.items := [Re.CRange (ch "A") (ch "Z"); Re.CRange (ch "a") (ch "z");
                  Re.CRange (ch "0") (ch "9"); Re.CLit (ch "_");
                  Re.CLit (ch "-")] |}.

(** [[A-Za-z0-9_-]] *)
Definition safe_char : Re.char_class :=
  {| Re.negated := false; Re.items := Re.items unsafe_char |}.

(** [f"{base}_chunk_{i}"] *)
Definition raw_id (base : str) (i : nat) : str :=
  base ++ lit "_chunk_" ++ str_of_int i.

(** [re.sub(r"[^A-Za-z0-9_-]", "_", raw_id)] *)
Definition safe_id (base : str) (i : nat) : str :=
  Re.sub unsafe_char (lit "_") (raw_id base i).

(** The storage id of chunk [i] of the document [doc_id]:
    [base = os.path.splitext(doc["id"])[0]], then [safe_id]. *)
Definition chunk_id (doc_id : str) (i : nat) : str :=
  safe_id (fst (OsPath.splitext doc_id)) i.

(** The base name of a document after sanitization: what [re.sub] makes
    of the part of the storage id that comes from the document. *)
Definition safe_base (doc_id : str) : str :=
  Re.sub unsafe_char (lit "_") (fst (OsPath.splitext doc_id)).

(** The identifier alphabet in the words of the design: the letters
    [A]-[Z] and [a]-[z], the digits, the underscore and the hyphen. *)
Definition in_id_alphabet (c : char) : bool :=
  ((65 <=? c) && (c <=? 90) || (97 <=? c) && (c <=? 122)
   || (48 <=? c) && (c <=? 57) || N.eqb c 95 || N.eqb c 45)%N.

(** Replace a character outside the alphabet with an underscore. *)
Definition replace_outside (c : char) : char :=
  if in_id_alphabet c then c else 95%N.

(** [s] cut at its last occurrence of [c]: what is before it and what is
    after it. *)
Fixpoint split_last (c : char) (s : str) : option (str * str) :=
  match s with
  | [] => None
  | x :: s' =>
      match split_last c s' with
      | Some (a, b) => Some (x :: a, b)
      | None => if N.eqb x c then Some ([], s') else None
      end
  end.

(** A document id as its directory part, up to and with the last slash,
    and its file name. *)
Definition split_dir (doc_id : str) : str * str :=
  match split_last (ch "/") doc_id with
  | Some (d, file) => (d ++ [ch "/"], file)
  | None => ([], doc_id)
  end.

(** The base name in the words of the design: the document id without
    its file extension.  The extension is what the file name holds from
    its last dot on; a dot that has only dots before it in the file name
    opens no extension. *)
Definition strip_extension (doc_id : str) : str :=
  let (dir, file) := split_dir doc_id in
  match split_last (ch ".") file with
  | Some (stem, _) =>
      if forallb (N.eqb (ch ".")) stem then doc_id else dir ++ stem
  | None => doc_id
  end.

(** The procedure of the design: strip the extension, append
    ["_chunk_"] and the decimal index, replace what is outside the
    alphabet. *)
Definition derived_id (doc_id : str) (i : nat) : str :=
  map replace_outside
    (strip_extension doc_id ++ lit "_chunk_" ++ str_of_int i).

Section Index.

(** [RecursiveCharacterTextSplitter(chunk_size=1000,
    chunk_overlap=200).split_text] *)
Variable split_text : str -> list str.
(** [openai.embeddings.create(model=..., input=...).data[0].embedding] *)
Variable embeddings_create : str -> list str -> result (list float).
Variable EMBED_MODEL : str.
(** [search_client.upload_documents]: per key, whether it succeeded. *)
Variable upload_documents : list index_record -> result (list (str * bool)).

(** [for i, chunk in enumerate(chunks)] *)
Fixpoint index_chunks (base : str) (chunks : list (nat * str))
    (batch : list index_record) : result (list index_record) :=
  match chunks with
  | [] => Ok batch
  | (i, chunk) :: rest =>
      vector <- embeddings_create EMBED_MODEL [chunk] ;;
      index_chunks base rest
        (batch ++ [{| id := safe_id base i; content := chunk;
                      contentVector := vector |}])
  end.

(** [for doc in docs] *)
Fixpoint index_docs (docs : list document) (batch : list index_record)
    : result (list index_record) :=
  match docs with
  | [] => Ok batch
  | doc :: rest =>
      let chunks := split_text (doc_text doc) in
      let base := fst (OsPath.splitext (doc_id doc)) in
      batch' <- index_chunks base (enumerate_from 0 chunks) batch ;;
      index_docs rest batch'
  end.

Definition chunk_and_index (docs : list document)
    : result (list (str * bool)) :=
  batch <- index_docs docs [] ;;
  upload_documents batch.

End Index.

(** What "logged and skipped" would give: the documents of the PDF blobs
    that can be read, the others left out. *)
Fixpoint readable_documents
    (PdfReader : list Byte.byte -> result (list (option str)))
    (blobs : list blob) : list document :=
  match blobs with
  | [] => []
  | b :: rest =>
      if is_pdf b then
        match extract_blob PdfReader b with
        | Ok d => d :: readable_documents PdfReader rest
        | Raise _ => readable_documents PdfReader rest
        end
      else readable_documents PdfReader rest
  end.

(** The extractor's output in the words of the design: the page texts in
    page order with a newline between consecutive pages, a page without
    text counting as the empty string. *)
Definition page_text (t : option str) : str :=
  match t with Some s => s | None => [] end.

Fixpoint pages_joined (pages : list (option str)) : str :=
  match pages with
  | [] => []
  | [t] => page_text t
  | t :: rest => page_text t ++ NL ++ pages_joined rest
  end.

(** Whether the reader accepts the bytes of a blob. *)
Definition readable
    (PdfReader : list Byte.byte -> result (list (option str)))
    (b : blob) : bool :=
  match PdfReader (data b) with Ok _ => true | Raise _ => false end.

(** A small container for the examples: two PDFs that can be read around
    one that cannot, and a reader that rejects empty input. *)
Definition sample_reader (bytes : list Byte.byte)
    : result (list (option str)) :=
  match bytes with
  | [] => Raise PdfReadError
  | _ :: _ => Ok [Some (lit "Drain the oil."); None; Some (lit "Refill.")]
  end.

Definition sample_container : list blob :=
  [ {| name := lit "oil-change.pdf"; data := [x25; x50; x44; x46] |};
    {| name := lit "notes.txt"; data := [x68; x69] |};
    {| name := lit "broken.pdf"; data := [] |};
    {| name := lit "Brakes.PDF"; data := [x25; x50; x44; x46] |} ].

End Ingest.

(* ------------------------------------------------------------------ *)
(** ** Python operations on decoded JSON *)

Module Py.

(** [obj.get(key, default)]: only a [dict] has [get]. *)
Definition get (obj : json) (key : str) (default : json) : result json :=
  match obj with
  | JObj fields =>
      match dict_lookup key fields with
      | Some v => Ok v
      | None => Ok default
      end
  | _ => Raise AttributeError
  end.

(** [len(v)] *)
Definition len (v : json) : result Z :=
  match v with
  | JArr elems => Ok (Z.of_nat (List.length elems))
  | JObj fields => Ok (Z.of_nat (List.length fields))
  | JStr s => Ok (Z.of_nat (List.length s))
  | _ => Raise TypeError
  end.

(** The elements [for h in v] visits: the items of a list, the keys of a
    dict, the characters of a string. *)
Definition iter (v : json) : result (list json) :=
  match v with
  | JArr elems => Ok elems
  | JObj fields => Ok (map (fun kv => JStr (fst kv)) fields)
  | JStr s => Ok (map (fun c => JStr [c]) s)
  | _ => Raise TypeError
  end.

(** [h[key]] for a string key. *)
Definition getitem (h : json) (key : str) : result json :=
  match h with
  | JObj fields =>
      match dict_lookup key fields with
      | Some v => Ok v
      | None => Raise (KeyError key)
      end
  | _ => Raise TypeError
  end.

(** [text[:100].replace(...)] in the logging loop of [answer_with_gpt4o]:
    it needs a string.  A list can be sliced but has no [replace]. *)
Definition sliced_text (text : json) : result str :=
  match text with
  | JStr s => Ok s
  | JArr _ => Raise AttributeError
  | _ => Raise TypeError
  end.

(** [content.replace("\n", " ")]: only a string has [replace]. *)
Definition replace_newlines (content : json) : result str :=
  match content with
  | JStr s => Ok (map (fun c => if N.eqb c 10 then 32%N else c) s)
  | _ => Raise AttributeError
  end.

End Py.

(* ------------------------------------------------------------------ *)
(** ** The services the query side calls *)

(** [{"role": ..., "content": ...}] *)
Record message : Type := { role : str; msg_content : str }.

(** What [requests.post] returns: the status code and the outcome of
    [resp.json()]. *)
Record response : Type := { status_code : Z; json_body : result json }.

(** A piece of an f-string handed to [print]: literal text, or a value
    formatted in place. *)
Inductive piece : Type :=
| PText (s : str)
| PValue (v : json).

(** The calls that leave the process, in the order they are made. *)
Inductive event : Type :=
| EmbeddingsCreate (model : str) (input : list str)
| RequestsPost (url : str) (body : json) (headers : list (str * str))
| ChatCompletionsCreate (model : str) (messages : list message)
    (temp : float) (max_toks : Z)
| Print (line : list piece).

(** The module-level settings and the endpoints behind the calls.
    [chat_completions_create] gives [resp.choices[0].message.content],
    which may be [None]. *)
Record env : Type :=
  { SEARCH_ENDPOINT : str;
    SEARCH_INDEX : str;
    SEARCH_API_KEY : str;
    EMBED_MODEL : str;
    CHAT_MODEL : str;
    embeddings_create : str -> list str -> result (list float);
    requests_post : str -> json -> list (str * str) -> result response;
    chat_completions_create :
      str -> list message -> float -> Z -> result (option str) }.

(** A computation that may raise and that appends the calls it makes to
    the trace. *)
Definition M (A : Type) : Type := list event -> result A * list event.

Definition ret {A} (a : A) : M A := fun tr => (Ok a, tr).

Definition lift {A} (r : result A) : M A := fun tr => (r, tr).

Definition call {A} (ev : event) (r : result A) : M A :=
  fun tr => (r, tr ++ [ev]).

Definition mbind {A B} (c : M A) (k : A -> M B) : M B :=
  fun tr =>
    match c tr with
    | (Ok a, tr') => k a tr'
    | (Raise e, tr') => (Raise e, tr')
    end.

Notation "x <~ c ;; k" := (mbind c (fun x => k))
  (at level 61, c at next level, right associativity).

(** A computation that only appends to the trace it is given. *)
Definition extends {A : Type} (c : M A) : Prop :=
  forall tr, exists out, snd (c tr) = tr ++ out.

(** [for x in l: body] *)
Fixpoint forM_ {A} (f : A -> M unit) (l : list A) : M unit :=
  match l with
  | [] => ret tt
  | a :: l' => _ <~ f a ;; forM_ f l'
  end.

(** [resp.raise_for_status()] *)
Definition raise_for_status (resp : response) : result unit :=
  if (400 <=? status_code resp)%Z && (status_code resp <? 600)%Z
  then Raise (HTTPError (status_code resp))
  else Ok tt.

(** A keyword argument with a default. *)
Definition arg_or (given : option Z) (default : Z) : Z :=
  match given with Some v => v | None => default end.

Definition search_url (e : env) : str :=
  SEARCH_ENDPOINT e ++ lit "/indexes/" ++ SEARCH_INDEX e
  ++ lit "/docs/search?api-version=2023-11-01".

Definition search_headers (e : env) : list (str * str) :=
  [(lit "Content-Type", lit "application/json");
   (lit "api-key", SEARCH_API_KEY e)].

(* ------------------------------------------------------------------ *)
(** ** app.py *)

Module App.

(** [def vector_search(query: str, k: int = 7)] *)
Definition vector_search_k_default : Z := 7.

(** The [body] dict of [vector_search]. *)
Definition search_body (emb : list float) (k : Z) : json :=
  JObj [(lit "top", JInt k);
        (lit "vectorQueries",
         JArr [JObj [(lit "fields", JStr (lit "contentVector"));
                     (lit "vector", JArr (map JFloat emb));
                     (lit "k", JInt k);
                     (lit "kind", JStr (lit "vector"));
                     (lit "exhaustive", JBool false)]])].

(** [(h["id"], h["content"])] *)
Definition hit_pair (h : json) : result (json * json) :=
  i <- Py.getitem h (lit "id") ;;
  c <- Py.getitem h (lit "content") ;;
  Ok (i, c).

Definition vector_search (e : env) (query : str) (k_arg : option Z)
    : M (list (json * json)) :=
  let k := arg_or k_arg vector_search_k_default in
  emb <~ call (EmbeddingsCreate (EMBED_MODEL e) [query])
              (embeddings_create e (EMBED_MODEL e) [query]) ;;
  let url := search_url e in
  let body := search_body emb k in
  resp <~ call (RequestsPost url body (search_headers e))
               (requests_post e url body (search_headers e)) ;;
  _ <~ lift (raise_for_status resp) ;;
  j <~ lift (json_body resp) ;;
  hits <~ lift (Py.get j (lit "value") (JArr [])) ;;
  _ <~ lift (Py.len hits) ;;
  elems <~ lift (Py.iter hits) ;;
  lift (mapM hit_pair elems).

(** The reply when nothing was retrieved.  U+2757 U+FE0F open it and the
    apostrophe is U+2019. *)
Definition no_documentation_message : str :=
  [10071%N; 65039%N] ++ lit "Sorry, I couldn" ++ [8217%N]
  ++ lit "t find any relevant documentation to answer that.".

(** [temperature=0.4]: the binary64 value nearest to 0.4. *)
Definition temperature : float := 0x1.999999999999ap-2%float.

Definition max_tokens : Z := 512.

Definition system_message : message :=
  {| role := lit "system";
     msg_content :=
       lit "You are a certified Royal Enfield mechanic. Answer clearly and step-by-step." |}.

(** [f"[{i}] {text}"] *)
Definition labelled (it : nat * str) : str :=
  lit "[" ++ str_of_int (fst it) ++ lit "] " ++ snd it.

(** ["\n\n".join(f"[{i}] {text}" for i, (_, text) in enumerate(chunks))] *)
Definition context_block (texts : list str) : str :=
  join (NL ++ NL) (map labelled (enumerate_from 0 texts)).

Definition user_message (question : str) (context : str) : message :=
  {| role := lit "user";
     msg_content :=
       lit "Context:" ++ NL ++ context ++ NL ++ NL
       ++ lit "Question: " ++ question ++ NL ++ NL
       ++ lit "Answer in a concise, step-by-step format." |}.

(** [chunks] is what [vector_search] returned: pairs of decoded JSON
    values.  The logging loop touches every [text] as a string before
    the prompt is built. *)
Definition answer_with_gpt4o (e : env) (question : str)
    (chunks : list (json * json)) : M str :=
  match chunks with
  | [] => ret no_documentation_message
  | _ :: _ =>
      texts <~ lift (mapM (fun c => Py.sliced_text (snd c)) chunks) ;;
      let system := system_message in
      let context := context_block texts in
      let user := user_message question context in
      resp <~ call (ChatCompletionsCreate (CHAT_MODEL e) [system; user]
                      temperature max_tokens)
                   (chat_completions_create e (CHAT_MODEL e) [system; user]
                      temperature max_tokens) ;;
      match resp with
      | Some content => ret (strip content)
      | None => lift (Raise AttributeError)
      end
  end.

(** [st.sidebar.slider(label, min_value, max_value, value)]: [value] until
    the user moves the handle, then the handle's position, which the
    track keeps between its two ends. *)
Definition slider (min_value max_value value : Z) (handle : option Z) : Z :=
  match handle with
  | None => value
  | Some v => Z.max min_value (Z.min max_value v)
  end.

(** One run of the script.  [handle], [prompt] and [ask] are the widget
    states of the run; [history] is [st.session_state.history], absent on
    the first run.  The result is the history after the run. *)
Definition app (e : env) (handle : option Z) (prompt : str) (ask : bool)
    (history : option (list (str * str))) : M (list (str * str)) :=
  let k := slider 1 8 4 handle in
  let history := match history with Some h => h | None => [] end in
  if ask then
    if truthy prompt then
      hits <~ vector_search e prompt (Some k) ;;
      answer <~ answer_with_gpt4o e prompt hits ;;
      ret (history ++ [(prompt, answer)])
    else ret history
  else ret history.

(** [for q, a in reversed(st.session_state.history)] *)
Definition conversation (history : list (str * str)) : list (str * str) :=
  List.rev history.

End App.

(* ------------------------------------------------------------------ *)
(** ** vector_searchrest.py *)

Module SearchRest.

(** [def vector_search(query: str, k: int = 5)] *)
Definition vector_search_k_default : Z := 5.

(** The [payload] dict. *)
Definition search_payload (vector : list float) (k : Z) : json :=
  JObj [(lit "search", JStr (lit "*"));
        (lit "select", JStr (lit "id,content"));
        (lit "vectorQueries",
         JArr [JObj [(lit "vector", JArr (map JFloat vector));
                     (lit "fields", JStr (lit "contentVector"));
                     (lit "k", JInt k);
                     (lit "kind", JStr (lit "vector"))]])].

(** The body of [for h in hits]: two [print] calls. *)
Definition print_hit (h : json) : M unit :=
  i <~ lift (Py.getitem h (lit "id")) ;;
  _ <~ call (Print [PText (lit "- "); PValue i; PText (lit ":")]) (Ok tt) ;;
  c <~ lift (Py.getitem h (lit "content")) ;;
  replaced <~ lift (Py.replace_newlines c) ;;
  let snippet := slice replaced 0 200 in
  call (Print [PText (lit "    " ++ snippet ++ [8230%N] ++ NL)]) (Ok tt).

(** The script's [vector_search] returns nothing: it prints the hits. *)
Definition vector_search (e : env) (query : str) (k_arg : option Z)
    : M unit :=
  let k := arg_or k_arg vector_search_k_default in
  vector <~ call (EmbeddingsCreate (EMBED_MODEL e) [query])
                 (embeddings_create e (EMBED_MODEL e) [query]) ;;
  let payload := search_payload vector k in
  let url := search_url e in
  let headers := search_headers e in
  r <~ call (RequestsPost url payload headers)
            (requests_post e url payload headers) ;;
  _ <~ lift (raise_for_status r) ;;
  j <~ lift (json_body r) ;;
  hits <~ lift (Py.get j (lit "value") (JArr [])) ;;
  _ <~ lift (Py.len hits) ;;
  elems <~ lift (Py.iter hits) ;;
  forM_ print_hit elems.

End SearchRest.

(* ------------------------------------------------------------------ *)
(** ** The contracts of the design, in its own words *)

Module Design.

(** A response element and the [(id, content)] pair made from it: the
    element is an object holding [id] and [content]. *)
Definition is_hit_of (h : json) (p : json * json) : Prop :=
  exists fields,
    h = JObj fields
    /\ dict_lookup (lit "id") fields = Some (fst p)
    /\ dict_lookup (lit "content") fields = Some (snd p).

(** The context block: each content labelled with its position counted
    from [i], in order, a blank line between consecutive entries. *)
Fixpoint context_from (i : nat) (contents : list str) : str :=
  match contents with
  | [] => []
  | [t] => lit "[" ++ str_of_int i ++ lit "] " ++ t
  | t :: rest =>
      lit "[" ++ str_of_int i ++ lit "] " ++ t ++ NL ++ NL
      ++ context_from (S i) rest
  end.

(** The primary request body of the vector query. *)
Definition primary_body (vector : list float) (k : Z) : json :=
  JObj [(lit "top", JInt k);
        (lit "vectorQueries",
         JArr [JObj [(lit "fields", JStr (lit "contentVector"));
                     (lit "vector", JArr (map JFloat vector));
                     (lit "k", JInt k);
                     (lit "kind", JStr (lit "vector"));
                     (lit "exhaustive", JBool false)]])].

(** The alternate request body: [search] and [select] next to the
    [vectorQueries] array, whose one entry carries the query vector, the
    vector field, the count [k] and the kind.  It has no [top] and its
    entry has no [exhaustive]. *)
Definition alternate_body (vector : list float) (k : Z) : json :=
  JObj [(lit "search", JStr (lit "*"));
        (lit "select", JStr (lit "id,content"));
        (lit "vectorQueries",
         JArr [JObj [(lit "vector", JArr (map JFloat vector));
                     (lit "fields", JStr (lit "contentVector"));
                     (lit "k", JInt k);
                     (lit "kind", JStr (lit "vector"))]])].

End Design.

(* ------------------------------------------------------------------ *)
(** ** A sample deployment for the examples *)

Module Sample.

Definition hits : json :=
  JObj [(lit "@odata.context", JStr (lit "https://search/$metadata"));
        (lit "value",
         JArr [JObj [(lit "@search.score", JFloat 0.5%float);
                     (lit "id", JStr (lit "oil-change_chunk_0"));
                     (lit "content", JStr (lit "Drain the oil."))];
               JObj [(lit "id", JStr (lit "oil-change_chunk_1"));
                     (lit "content", JStr (lit "Refill."))]])].

Definition no_value : json :=
  JObj [(lit "@odata.context", JStr (lit "https://search/$metadata"))].

(** A deployment whose search service answers every query with [reply]. *)
Definition deployment (reply : json) : env :=
  {| SEARCH_ENDPOINT := lit "https://search";
     SEARCH_INDEX := lit "manuals";
     SEARCH_API_KEY := lit "key";
     EMBED_MODEL := lit "embed";
     CHAT_MODEL := lit "gpt-4o";
     embeddings_create := fun _ _ => Ok [0.5%float; 0.25%float];
     requests_post :=
       fun _ _ _ => Ok {| status_code := 200; json_body := Ok reply |};
     chat_completions_create :=
       fun _ _ _ _ => Ok (Some (lit " 1. Drain the oil. 2. Refill. ")) |}.

Definition pairs : list (json * json) :=
  [(JStr (lit "oil-change_chunk_0"), JStr (lit "Drain the oil."));
   (JStr (lit "oil-change_chunk_1"), JStr (lit "Refill."))].

End Sample.

(* ------------------------------------------------------------------ *)
(** ** Start-up of ingest_and_index.py *)

Module IngestStartup.

(** The keys of the dict the validation loop walks, in its order. *)
Definition required : list str :=
  [lit "AZURE_SEARCH_ENDPOINT"; lit "AZURE_SEARCH_INDEX";
   lit "AZURE_SEARCH_API_KEY"; lit "BLOB_ACCOUNT_URL";
   lit "BLOB_CONTAINER_NAME"; lit "BLOB_ACCOUNT_KEY";
   lit "AZURE_EMBED_DEPLOYMENT"].

(** How the module-level code ends: it goes on to the main flow, or it
    logs an error and calls [sys.exit]. *)
Inductive startup : Type :=
| Proceed
| Exit (code : Z) (logged : str).

(** [not val] for what [os.getenv] returned: [None] and the empty string
    are false. *)
Definition missing (val : option str) : bool :=
  match val with
  | Some s => negb (truthy s)
  | None => true
  end.

(** [for name, val in {...}.items()], where each value is
    [os.getenv(name)]. *)
Fixpoint validate_loop (getenv : str -> option str) (names : list str)
    : startup :=
  match names with
  | [] => Proceed
  | name :: rest =>
      if missing (getenv name)
      then Exit 1 (lit "Missing required .env variable: " ++ name)
      else validate_loop getenv rest
  end.

Definition validate (getenv : str -> option str) : startup :=
  validate_loop getenv required.

(** [s.startswith(prefix)] *)
Fixpoint startswith (s prefix : str) : bool :=
  match prefix, s with
  | [], _ => true
  | p :: prefix', c :: s' => N.eqb c p && startswith s' prefix'
  | _ :: _, [] => false
  end.

(** [s.split(sep)] for a non-empty [sep]: the pieces between the
    occurrences of [sep], found from the left and not overlapping.
    [skip] counts the characters of a found separator still to pass,
    [cur] holds the current piece, last character first. *)
Fixpoint split_aux (sep s : str) (skip : nat) (cur : str) : list str :=
  match s with
  | [] => [List.rev cur]
  | c :: s' =>
      match skip with
      | S k => split_aux sep s' k cur
      | O =>
          if startswith s sep
          then List.rev cur :: split_aux sep s' (List.length sep - 1) []
          else split_aux sep s' 0 (c :: cur)
      end
  end.

Definition split (s sep : str) : list str := split_aux sep s 0 [].

(** [BLOB_ACCOUNT_URL.split("//")[1].split(".")[0]]; [None] stands for
    the [IndexError] of an index out of range. *)
Definition account_name (url : str) : option str :=
  match nth_error (split url (lit "//")) 1 with
  | Some host => nth_error (split host (lit ".")) 0
  | None => None
  end.

(** The main flow: extract, then chunk and index. *)
Definition main
    (PdfReader : list Byte.byte -> result (list (option str)))
    (split_text : str -> list str)
    (embeddings_create : str -> list str -> result (list float))
    (EMBED_MODEL : str)
    (upload_documents :
       list Ingest.index_record -> result (list (str * bool)))
    (container : list Ingest.blob) : result (list (str * bool)) :=
  docs <- Ingest.fetch_and_extract_pdfs PdfReader container ;;
  Ingest.chunk_and_index split_text embeddings_create EMBED_MODEL
    upload_documents docs.

End IngestStartup.

(* ------------------------------------------------------------------ *)
(** ** Settings of app.py *)

Module AppSettings.

(** [os.getenv(name, default)] *)
Definition getenv_or (getenv : str -> option str) (name default : str)
    : str :=
  match getenv name with
  | Some v => v
  | None => default
  end.

Fixpoint drop_while (f : char -> bool) (s : str) : str :=
  match s with
  | [] => []
  | c :: s' => if f c then drop_while f s' else s
  end.

(** [s.rstrip(chars)] *)
Definition rstrip (s chars : str) : str :=
  List.rev (drop_while (fun c => existsb (N.eqb c) chars) (List.rev s)).

(** The module-level settings of app.py, read from the environment; the
    endpoints behind the calls are those of [services]. *)
Definition configure (getenv : str -> option str) (services : env) : env :=
  {| SEARCH_ENDPOINT :=
       rstrip (getenv_or getenv (lit "AZURE_SEARCH_ENDPOINT") []) (lit "/");
     SEARCH_INDEX := getenv_or getenv (lit "AZURE_SEARCH_INDEX") [];
     SEARCH_API_KEY := getenv_or getenv (lit "AZURE_SEARCH_API_KEY") [];
     EMBED_MODEL := getenv_or getenv (lit "AZURE_EMBED_DEPLOYMENT") [];
     CHAT_MODEL := getenv_or getenv (lit "AZURE_CHAT_DEPLOYMENT") [];
     embeddings_create := embeddings_create services;
     requests_post := requests_post services;
     chat_completions_create := chat_completions_create services |}.

End AppSettings.

(* ------------------------------------------------------------------ *)
(** ** Sample environments *)

Module SampleEnv.

(** Every setting present but the blob account URL, which is empty. *)
Definition without_account_url (name : str) : option str :=
  if str_eqb name (lit "BLOB_ACCOUNT_URL") then Some []
  else Some (lit "set").

(** The search endpoint given with trailing slashes. *)
Definition trailing_slashes (name : str) : option str :=
  if str_eqb name (lit "AZURE_SEARCH_ENDPOINT")
  then Some (lit "https://search//")
  else if str_eqb name (lit "AZURE_SEARCH_INDEX") then Some (lit "manuals")
  else None.

End SampleEnv.

(* ------------------------------------------------------------------ *)
(** ** Notions the further properties are stated with *)

Module Notions.

(** A name that ends in [.pdf], in any mix of upper and lower case. *)
Definition has_pdf_suffix (s : str) : Prop :=
  exists stem c1 c2 c3,
    s = stem ++ [46%N; c1; c2; c3]
    /\ (c1 = 80%N \/ c1 = 112%N)
    /\ (c2 = 68%N \/ c2 = 100%N)
    /\ (c3 = 70%N \/ c3 = 102%N).

(** The records of one document when [vec] gives the embedding of each
    chunk: one record per chunk, in chunk order. *)
Definition records_of (split_text : str -> list str)
    (vec : str -> list float) (doc : Ingest.document)
    : list Ingest.index_record :=
  map (fun ic =>
         {| Ingest.id := Ingest.chunk_id (Ingest.doc_id doc) (fst ic);
            Ingest.content := snd ic;
            Ingest.contentVector := vec (snd ic) |})
      (enumerate_from 0 (split_text (Ingest.doc_text doc))).

(** A string that neither starts nor ends with white space. *)
Definition no_outer_space (a : str) : Prop :=
  match a with [] => True | c :: _ => isspace c = false end
  /\ match List.rev a with [] => True | c :: _ => isspace c = false end.

(** [content.replace("\n", " ")[:200]] on a string. *)
Definition snippet (content : str) : str :=
  firstn 200 (map (fun c => if N.eqb c 10 then 32%N else c) content).

(** The first line vector_searchrest.py prints for a hit: its id. *)
Definition id_line (i : json) : event :=
  Print [PText (lit "- "); PValue i; PText (lit ":")].

(** The two lines vector_searchrest.py prints for a hit: its id, then
    the snippet of its content followed by an ellipsis. *)
Definition hit_lines (h : json * str) : list event :=
  [id_line (fst h);
   Print [PText (lit "    " ++ snippet (snd h) ++ [8230%N] ++ NL)]].

(** Whether [sep] occurs in [s]. *)
Fixpoint occurs (sep s : str) : bool :=
  match s with
  | [] => IngestStartup.startswith [] sep
  | _ :: s' => IngestStartup.startswith s sep || occurs sep s'
  end.

(** A hit whose content is not a string. *)
Definition not_a_string (c : json * json) : bool :=
  match snd c with JStr _ => false | _ => true end.

End Notions.

(* ------------------------------------------------------------------ *)
(** ** A sample ingestion for the examples *)

Module SampleIngest.

(** A reader that also rejects the bytes of [notes.txt]. *)
Definition picky_reader (bytes : list Byte.byte)
    : result (list (option str)) :=
  match bytes with
  | [x68; x69] => Raise PdfReadError
  | _ => Ingest.sample_reader bytes
  end.

Definition readable_container : list Ingest.blob :=
  [ {| Ingest.name := lit "oil-change.pdf";
       Ingest.data := [x25; x50; x44; x46] |};
    {| Ingest.name := lit "notes.txt"; Ingest.data := [x68; x69] |};
    {| Ingest.name := lit "Brakes.PDF";
       Ingest.data := [x25; x50; x44; x46] |} ].

(** A splitter that cuts a text in two around its first blank line, here
    after 14 characters. *)
Definition split_text (text : str) : list str :=
  match text with
  | [] => []
  | _ :: _ => [firstn 14 text; skipn 16 text]
  end.

(** An embedding endpoint that rejects the empty input. *)
Definition embed (model : str) (input : list str) : result (list float) :=
  match input with
  | [[]] => Raise APIError
  | _ => Ok [0.5%float; 0.25%float]
  end.

Definition vec (chunk : str) : list float := [0.5%float; 0.25%float].

Definition upload (batch : list Ingest.index_record)
    : result (list (str * bool)) :=
  Ok (map (fun r => (Ingest.id r, true)) batch).

Definition manual : str := lit "Drain the oil." ++ NL ++ NL ++ lit "Refill.".

Definition docs : list Ingest.document :=
  [ {| Ingest.doc_id := lit "oil-change.pdf"; Ingest.doc_text := manual |};
    {| Ingest.doc_id := lit "Brakes.PDF"; Ingest.doc_text := manual |} ].

End SampleIngest.

(* ------------------------------------------------------------------ *)
(** ** Sample deployments with faults *)

Module SampleFaults.

(** The search service answers every query with [status] and [reply]. *)
Definition with_status (status : Z) (reply : json) : env :=
  {| SEARCH_ENDPOINT := lit "https://search";
     SEARCH_INDEX := lit "manuals";
     SEARCH_API_KEY := lit "key";
     EMBED_MODEL := lit "embed";
     CHAT_MODEL := lit "gpt-4o";
     embeddings_create := fun _ _ => Ok [0.5%float; 0.25%float];
     requests_post :=
       fun _ _ _ => Ok {| status_code := status; json_body := Ok reply |};
     chat_completions_create :=
       fun _ _ _ _ => Ok (Some (lit " 1. Drain the oil. 2. Refill. ")) |}.

(** The embedding endpoint is down. *)
Definition embedding_down : env :=
  {| SEARCH_ENDPOINT := lit "https://search";
     SEARCH_INDEX := lit "manuals";
     SEARCH_API_KEY := lit "key";
     EMBED_MODEL := lit "embed";
     CHAT_MODEL := lit "gpt-4o";
     embeddings_create := fun _ _ => Raise APIError;
     requests_post :=
       fun _ _ _ => Ok {| status_code := 200; json_body := Ok Sample.hits |};
     chat_completions_create :=
       fun _ _ _ _ => Ok (Some (lit " 1. Drain the oil. 2. Refill. ")) |}.

(** A reply whose second hit has no [content]. *)
Definition second_hit_without_content : list (str * json) :=
  [(lit "value",
    JArr ([JObj [(lit "id", JStr (lit "oil-change_chunk_0"));
                 (lit "content", JStr (lit "Drain the oil."))]]
          ++ JObj [(lit "id", JStr (lit "oil-change_chunk_1"))] :: []))].

(** A reply whose only hit holds a number as [content]. *)
Definition numeric_content : list (json * json) :=
  [(JStr (lit "oil-change_chunk_0"), JInt 350)].

End SampleFaults.

(* ================================================================== *)
(** * Properties *)

(* ------------------------------------------------------------------ *)
(** ** Strings and decimal indices *)

Section StringFacts.

Lemma ch_inj : forall a b, ch a = ch b -> a = b.
Proof.
  unfold ch. intros a b H.
  rewrite <- (ascii_N_embedding a), <- (ascii_N_embedding b).
  now rewrite H.
Qed.

Lemma lit_inj : forall s t, lit s = lit t -> s = t.
Proof.
  induction s as [|a s IH]; destruct t as [|b t]; simpl; intros H;
    try discriminate; auto.
  injection H as Hc Ht. apply ch_inj in Hc. apply IH in Ht. congruence.
Qed.

Lemma str_eqb_eq : forall a b, str_eqb a b = true <-> a = b.
Proof.
  induction a as [|x a IH]; destruct b as [|y b]; simpl; split;
    intros H; try discriminate; auto.
  - apply andb_true_iff in H as [Hx Hr]. apply N.eqb_eq in Hx.
    apply IH in Hr. congruence.
  - injection H as -> ->. rewrite N.eqb_refl. simpl. now apply IH.
Qed.

Lemma uint_digits : forall d, Forall is_digit (lit (NilEmpty.string_of_uint d)).
Proof.
  induction d; simpl; constructor; auto; unfold is_digit; cbn; lia.
Qed.

Lemma str_of_int_digits : forall n, Forall is_digit (str_of_int n).
Proof. intros n. apply uint_digits. Qed.

Lemma str_of_int_inj : forall n m, str_of_int n = str_of_int m -> n = m.
Proof.
  unfold str_of_int. intros n m H. apply lit_inj in H.
  apply DecimalNat.Unsigned.to_uint_inj.
  pose proof (NilEmpty.usu (Nat.to_uint n)) as Hn.
  pose proof (NilEmpty.usu (Nat.to_uint m)) as Hm.
  rewrite H in Hn. congruence.
Qed.

Lemma str_of_int_nonempty : forall n, str_of_int n <> [].
Proof.
  intros n H. unfold str_of_int in H.
  destruct (Nat.to_uint n) eqn:E; simpl in H; try discriminate.
  pose proof (DecimalNat.Unsigned.of_to n) as Hof. rewrite E in Hof.
  destruct n; [simpl in E; discriminate|].
  simpl in Hof. discriminate.
Qed.

Example str_of_int_samples :
  map str_of_int [0; 7; 10; 120] = [lit "0"; lit "7"; lit "10"; lit "120"].
Proof. reflexivity. Qed.

(** A string is cut in one way only at its last occurrence of [u]. *)
Lemma cut_at_last :
  forall (u : char) (x y d1 d2 : str),
    ~ In u d1 -> ~ In u d2 ->
    x ++ u :: d1 = y ++ u :: d2 -> x = y /\ d1 = d2.
Proof.
  intros u. induction x as [|a x IH]; destruct y as [|b y]; simpl;
    intros d1 d2 H1 H2 E.
  - injection E as ->. auto.
  - injection E as _ E. exfalso. apply H1. rewrite E.
    apply in_or_app. right. now left.
  - injection E as _ E. exfalso. apply H2. rewrite <- E.
    apply in_or_app. right. now left.
  - injection E as -> E. destruct (IH y d1 d2 H1 H2 E) as [-> ->]. auto.
Qed.

End StringFacts.

(* ------------------------------------------------------------------ *)
(** ** [os.path.splitext] strips the extension *)

Section SplitextFacts.

Import Ingest.

Lemma split_last_Some :
  forall c s a b, split_last c s = Some (a, b) -> s = a ++ c :: b.
Proof.
  intros c. induction s as [|x s IH]; intros a b H; simpl in H;
    [discriminate|].
  destruct (split_last c s) as [[a' b']|] eqn:E.
  - injection H as <- <-. rewrite (IH a' b' eq_refl). reflexivity.
  - destruct (N.eqb x c) eqn:Ex; [|discriminate].
    injection H as <- <-. apply N.eqb_eq in Ex. subst. reflexivity.
Qed.

Lemma split_last_app :
  forall c x y,
    split_last c (x ++ y)
    = match split_last c y with
      | Some (a, b) => Some (x ++ a, b)
      | None =>
          match split_last c x with
          | Some (a, b) => Some (a, b ++ y)
          | None => None
          end
      end.
Proof.
  intros c. induction x as [|h x IH]; intros y; simpl.
  - destruct (split_last c y) as [[a b]|]; reflexivity.
  - rewrite IH. destruct (split_last c y) as [[a b]|]; [reflexivity|].
    destruct (split_last c x) as [[a b]|]; [reflexivity|].
    destruct (N.eqb h c); reflexivity.
Qed.

Lemma rfind_from_split_last :
  forall c s i found,
    rfind_from c s i found
    = match split_last c s with
      | Some (a, _) => (i + Z.of_nat (List.length a))%Z
      | None => found
      end.
Proof.
  intros c. induction s as [|x s IH]; intros i found; [reflexivity|].
  cbn [rfind_from split_last]. rewrite IH.
  destruct (split_last c s) as [[a b]|].
  - cbn [List.length]. lia.
  - destruct (N.eqb x c); cbn [List.length]; [lia | reflexivity].
Qed.

Lemma rfind_split_last :
  forall s c,
    rfind s c
    = match split_last c s with
      | Some (a, _) => Z.of_nat (List.length a)
      | None => (-1)%Z
      end.
Proof.
  intros s c. unfold rfind. rewrite rfind_from_split_last.
  destruct (split_last c s) as [[a b]|]; reflexivity.
Qed.

Lemma slice_one :
  forall (pre : str) (x : char) (rest : str),
    slice (pre ++ x :: rest) (Z.of_nat (List.length pre))
      (Z.of_nat (List.length pre) + 1)
    = [x].
Proof.
  intros pre x rest. unfold slice.
  replace (Z.of_nat (List.length pre) + 1 - Z.of_nat (List.length pre))%Z
    with 1%Z by lia.
  rewrite Nat2Z.id, skipn_app, skipn_all, Nat.sub_diag. reflexivity.
Qed.

(** The loop of [_splitext] over a stretch [stem] of the path: it finds
    a character that is not the separator unless there is none. *)
Lemma splitext_scan_stem :
  forall (dot : char) (stem pre post : str) (fuel : nat),
    (List.length stem <= fuel)%nat ->
    OsPath.splitext_scan fuel (pre ++ stem ++ post) dot
      (Z.of_nat (List.length pre))
      (Z.of_nat (List.length pre + List.length stem))
    = negb (forallb (N.eqb dot) stem).
Proof.
  intros dot. induction stem as [|x stem IH]; intros pre post fuel Hfuel.
  - destruct fuel; [reflexivity|]. cbn [OsPath.splitext_scan List.length].
    rewrite Nat.add_0_r, Z.ltb_irrefl. reflexivity.
  - destruct fuel as [|fuel]; [cbn [List.length] in Hfuel; lia|].
    cbn [OsPath.splitext_scan].
    replace (Z.of_nat (List.length pre)
             <? Z.of_nat (List.length pre + List.length (x :: stem)))%Z
      with true
      by (symmetry; apply Z.ltb_lt; cbn [List.length]; lia).
    change (pre ++ (x :: stem) ++ post) with (pre ++ x :: (stem ++ post)).
    rewrite slice_one. cbn [str_eqb forallb]. rewrite andb_true_r.
    rewrite (N.eqb_sym dot x).
    destruct (N.eqb x dot); [|reflexivity]. cbn [negb andb].
    replace (pre ++ x :: stem ++ post) with ((pre ++ [x]) ++ stem ++ post)
      by (now rewrite <- app_assoc).
    replace (Z.of_nat (List.length pre) + 1)%Z
      with (Z.of_nat (List.length (pre ++ [x])))
      by (rewrite length_app; cbn [List.length]; lia).
    replace (List.length pre + List.length (x :: stem))%nat
      with (List.length (pre ++ [x]) + List.length stem)%nat
      by (rewrite length_app; cbn [List.length]; lia).
    apply IH. cbn [List.length] in Hfuel. lia.
Qed.

Lemma splitext_with_dot :
  forall (p dir stem ext : str),
    p = dir ++ stem ++ ch "." :: ext ->
    (rfind p (ch "/") + 1)%Z = Z.of_nat (List.length dir) ->
    rfind p (ch ".") = Z.of_nat (List.length dir + List.length stem) ->
    fst (OsPath.splitext p)
    = if forallb (N.eqb (ch ".")) stem then p else dir ++ stem.
Proof.
  intros p dir stem ext Hp Hsep Hdot.
  unfold OsPath.splitext, OsPath._splitext. rewrite Hdot.
  replace (rfind p (ch "/") <? Z.of_nat (List.length dir + List.length stem))%Z
    with true by (symmetry; apply Z.ltb_lt; lia).
  rewrite Hsep.
  replace (Z.to_nat (Z.of_nat (List.length dir + List.length stem)
                     - Z.of_nat (List.length dir)))
    with (List.length stem) by lia.
  rewrite Hp at 1.
  rewrite (splitext_scan_stem (ch ".") stem dir (ch "." :: ext)
             (List.length stem) (Nat.le_refl _)).
  destruct (forallb (N.eqb (ch ".")) stem); [reflexivity|].
  cbn [andb negb fst]. unfold slice.
  rewrite Z.sub_0_r, Nat2Z.id. cbn [Z.to_nat skipn].
  rewrite Hp, app_assoc, <- length_app.
  rewrite firstn_app, firstn_all, Nat.sub_diag. cbn [firstn].
  now rewrite app_nil_r.
Qed.

Lemma splitext_without_dot :
  forall p : str,
    (rfind p (ch ".") <= rfind p (ch "/"))%Z -> fst (OsPath.splitext p) = p.
Proof.
  intros p H. unfold OsPath.splitext, OsPath._splitext.
  replace (rfind p (ch "/") <? rfind p (ch "."))%Z with false
    by (symmetry; apply Z.ltb_ge; exact H).
  reflexivity.
Qed.

(** [os.path.splitext] gives the base name of the design. *)
Lemma splitext_strips :
  forall p : str, fst (OsPath.splitext p) = strip_extension p.
Proof.
  intros p. unfold strip_extension, split_dir.
  destruct (split_last (ch "/") p) as [[d file]|] eqn:Esep.
  - pose proof (split_last_Some _ _ _ _ Esep) as Hp.
    assert (Hp' : p = (d ++ [ch "/"]) ++ file)
      by (now rewrite <- app_assoc).
    assert (Hsep : (rfind p (ch "/") + 1)%Z
                   = Z.of_nat (List.length (d ++ [ch "/"]))).
    { rewrite rfind_split_last, Esep, length_app. cbn [List.length]. lia. }
    destruct (split_last (ch ".") file) as [[stem ext]|] eqn:Edot.
    + pose proof (split_last_Some _ _ _ _ Edot) as Hfile.
      apply (splitext_with_dot p (d ++ [ch "/"]) stem ext).
      * now rewrite Hp', Hfile.
      * exact Hsep.
      * rewrite rfind_split_last. rewrite Hp' at 1.
        rewrite split_last_app, Edot, length_app. reflexivity.
    + apply splitext_without_dot.
      rewrite (rfind_split_last p (ch ".")). rewrite Hp' at 1.
      rewrite split_last_app, Edot.
      destruct (split_last (ch ".") (d ++ [ch "/"])) as [[a b]|] eqn:Edir.
      * apply split_last_Some in Edir.
        apply (f_equal (@List.length char)) in Edir.
        rewrite !length_app in Edir. cbn [List.length] in Edir.
        rewrite length_app in Hsep. cbn [List.length] in Hsep. lia.
      * rewrite length_app in Hsep. cbn [List.length] in Hsep. lia.
  - destruct (split_last (ch ".") p) as [[stem ext]|] eqn:Edot.
    + pose proof (split_last_Some _ _ _ _ Edot) as Hp.
      apply (splitext_with_dot p [] stem ext).
      * exact Hp.
      * rewrite rfind_split_last, Esep. reflexivity.
      * rewrite rfind_split_last, Edot. reflexivity.
    + apply splitext_without_dot.
      rewrite !rfind_split_last, Esep, Edot. lia.
Qed.

End SplitextFacts.

(* ------------------------------------------------------------------ *)
(** ** Identifier derivation *)

Section ChunkIds.

Import Ingest.

Lemma unsafe_char_alphabet :
  forall c, Re.class_matches unsafe_char c = negb (in_id_alphabet c).
Proof.
  intros c. unfold Re.class_matches, unsafe_char, in_id_alphabet. cbn.
  now rewrite orb_false_r, !orb_assoc.
Qed.

Lemma safe_char_alphabet :
  forall c, Re.class_matches safe_char c = in_id_alphabet c.
Proof.
  intros c. unfold Re.class_matches, safe_char, in_id_alphabet. cbn.
  now rewrite orb_false_r, !orb_assoc.
Qed.

Lemma sub_as_map :
  forall s, Re.sub unsafe_char (lit "_") s = map replace_outside s.
Proof.
  unfold Re.sub. induction s as [|c s IH]; [reflexivity|].
  cbn [flat_map map]. rewrite IH, unsafe_char_alphabet.
  unfold replace_outside. now destruct (in_id_alphabet c).
Qed.

Lemma replace_outside_in_alphabet :
  forall c, in_id_alphabet (replace_outside c) = true.
Proof.
  intros c. unfold replace_outside.
  destruct (in_id_alphabet c) eqn:E; [exact E | reflexivity].
Qed.

Lemma replace_outside_fixes :
  forall c, in_id_alphabet c = true -> replace_outside c = c.
Proof. intros c H. unfold replace_outside. now rewrite H. Qed.

Lemma map_replace_outside_fixes :
  forall s, Forall (fun c => in_id_alphabet c = true) s ->
            map replace_outside s = s.
Proof.
  induction 1 as [|c s Hc _ IH]; simpl; [reflexivity|].
  now rewrite IH, replace_outside_fixes.
Qed.

Lemma digit_in_alphabet : forall c, is_digit c -> in_id_alphabet c = true.
Proof.
  intros c [Hlo Hhi]. unfold in_id_alphabet.
  apply N.leb_le in Hlo. apply N.leb_le in Hhi. rewrite Hlo, Hhi.
  simpl. now rewrite !orb_true_r.
Qed.

Lemma digits_fixed : forall n, map replace_outside (str_of_int n) = str_of_int n.
Proof.
  intros n. apply map_replace_outside_fixes.
  eapply Forall_impl; [|apply str_of_int_digits].
  intros c. apply digit_in_alphabet.
Qed.

Lemma digits_no_underscore : forall n, ~ In 95%N (str_of_int n).
Proof.
  intros n Hin. pose proof (str_of_int_digits n) as Hd.
  rewrite Forall_forall in Hd. apply Hd in Hin. unfold is_digit in Hin. lia.
Qed.

(** The storage id is the sanitized base name, then ["_chunk_"], then
    the index in decimal. *)
Lemma chunk_id_shape :
  forall doc_id i,
    chunk_id doc_id i = safe_base doc_id ++ lit "_chunk_" ++ str_of_int i.
Proof.
  intros doc_id i. unfold chunk_id, safe_id, raw_id, safe_base.
  rewrite !sub_as_map, !map_app, digits_fixed. reflexivity.
Qed.

(** The same, cut at the last underscore. *)
Lemma chunk_id_cut :
  forall doc_id i,
    chunk_id doc_id i
    = (safe_base doc_id ++ lit "_chunk") ++ 95%N :: str_of_int i.
Proof.
  intros doc_id i. rewrite chunk_id_shape, <- app_assoc. reflexivity.
Qed.

(** C3: for every document id and chunk index the storage id is the
    result of the stated procedure (strip the extension, append
    ["_chunk_"] and the decimal index, replace every character outside
    [[A-Za-z0-9_-]] with an underscore); every storage id is therefore
    non-empty, made of that alphabet only, and matches
    [^[A-Za-z0-9_-]+$]. *)
Theorem chunk_id_follows_procedure :
  forall doc_id i,
    chunk_id doc_id i = derived_id doc_id i
    /\ Forall (fun c => in_id_alphabet c = true) (chunk_id doc_id i)
    /\ Re.fullmatch_plus safe_char (chunk_id doc_id i) = true.
Proof.
  intros doc_id i.
  assert (Hproc : chunk_id doc_id i = derived_id doc_id i).
  { unfold chunk_id, safe_id, raw_id, derived_id.
    rewrite <- splitext_strips. apply sub_as_map. }
  assert (Hall : Forall (fun c => in_id_alphabet c = true) (chunk_id doc_id i)).
  { rewrite Hproc. unfold derived_id. apply Forall_forall.
    intros c Hin. apply in_map_iff in Hin as [c0 [<- _]].
    apply replace_outside_in_alphabet. }
  repeat split; auto.
  unfold Re.fullmatch_plus. apply andb_true_iff. split.
  - rewrite chunk_id_shape.
    destruct (safe_base doc_id); reflexivity.
  - apply forallb_forall. intros c Hin. rewrite safe_char_alphabet.
    rewrite Forall_forall in Hall. now apply Hall.
Qed.

(** C2, as stated, fails: two different documents of one container,
    both accepted by the ingestion, get the same storage id for their
    first chunk. *)
Lemma chunk_id_collision :
  lit "a.b.pdf" <> lit "a_b.pdf"
  /\ is_pdf {| name := lit "a.b.pdf"; data := [] |} = true
  /\ is_pdf {| name := lit "a_b.pdf"; data := [] |} = true
  /\ chunk_id (lit "a.b.pdf") 0 = lit "a_b_chunk_0"
  /\ chunk_id (lit "a_b.pdf") 0 = lit "a_b_chunk_0"
  /\ ~ (forall d1 i1 d2 i2,
          (d1, i1) <> (d2, i2) -> chunk_id d1 i1 <> chunk_id d2 i2).
Proof.
  assert (Hne : lit "a.b.pdf" <> lit "a_b.pdf") by (vm_compute; discriminate).
  repeat split; try reflexivity; auto.
  intros H. apply (H (lit "a.b.pdf") 0 (lit "a_b.pdf") 0).
  - intros E. apply Hne. now injection E.
  - reflexivity.
Qed.

(** C2, amended: two pairs get the same storage id exactly when their
    indices are equal and their documents have the same base name after
    sanitization.  The derivation is injective in the index, and
    injective over documents whose sanitized base names differ. *)
Theorem chunk_id_injective_up_to_base :
  forall d1 i1 d2 i2,
    chunk_id d1 i1 = chunk_id d2 i2
    <-> safe_base d1 = safe_base d2 /\ i1 = i2.
Proof.
  intros d1 i1 d2 i2. split.
  - intros E. rewrite !chunk_id_cut in E.
    apply cut_at_last in E; try apply digits_no_underscore.
    destruct E as [Eb Ei]. apply app_inv_tail in Eb.
    apply str_of_int_inj in Ei. auto.
  - intros [Eb ->]. rewrite !chunk_id_shape, Eb. reflexivity.
Qed.

End ChunkIds.

(* ------------------------------------------------------------------ *)
(** ** The ids of an uploaded batch *)

Section BatchIds.

Import Ingest.

Variable split_text : str -> list str.
Variable embeddings_create : str -> list str -> result (list float).
Variable EMBED_MODEL : str.

Lemma enumerate_from_fst :
  forall (A : Type) (l : list A) (n : nat),
    map fst (enumerate_from n l) = seq n (List.length l).
Proof.
  intros A. induction l as [|a l IH]; intros n; simpl; [reflexivity|].
  now rewrite IH.
Qed.

Lemma index_chunks_ids :
  forall base chunks batch batch',
    index_chunks embeddings_create EMBED_MODEL base chunks batch = Ok batch' ->
    map id batch'
    = map id batch ++ map (fun ic => safe_id base (fst ic)) chunks.
Proof.
  intros base. induction chunks as [|[i chunk] chunks IH];
    intros batch batch' H; simpl in H.
  - injection H as <-. simpl. now rewrite app_nil_r.
  - destruct (embeddings_create EMBED_MODEL [chunk]) as [vector|e];
      simpl in H; [|discriminate].
    apply IH in H. rewrite H, map_app, <- app_assoc. reflexivity.
Qed.

(** Every record of the batch carries the storage id of its chunk:
    document by document, chunk indices counted from 0. *)
Lemma index_docs_ids :
  forall docs batch batch',
    index_docs split_text embeddings_create EMBED_MODEL docs batch
    = Ok batch' ->
    map id batch'
    = map id batch
      ++ flat_map
           (fun doc =>
              map (chunk_id (doc_id doc))
                  (seq 0 (List.length (split_text (doc_text doc)))))
           docs.
Proof.
  induction docs as [|doc docs IH]; intros batch batch' H; simpl in H.
  - injection H as <-. simpl. now rewrite app_nil_r.
  - destruct (index_chunks embeddings_create EMBED_MODEL
                (fst (OsPath.splitext (doc_id doc)))
                (enumerate_from 0 (split_text (doc_text doc))) batch)
      as [mid|e] eqn:E; simpl in H; [|discriminate].
    apply index_chunks_ids in E. apply IH in H.
    rewrite H, E, <- app_assoc. f_equal. simpl. f_equal.
    rewrite <- (enumerate_from_fst _ (split_text (doc_text doc)) 0).
    rewrite map_map. reflexivity.
Qed.

End BatchIds.

(* ------------------------------------------------------------------ *)
(** ** [os.path.splitext] on sample names *)

Section SplitextExamples.

Example splitext_two_dots :
  OsPath.splitext (lit "a.b.pdf") = (lit "a.b", lit ".pdf").
Proof. reflexivity. Qed.

Example splitext_leading_dot :
  OsPath.splitext (lit ".pdf") = (lit ".pdf", []).
Proof. reflexivity. Qed.

Example splitext_leading_dots :
  OsPath.splitext (lit "x/..a.pdf") = (lit "x/..a", lit ".pdf").
Proof. reflexivity. Qed.

Example splitext_dot_in_directory :
  OsPath.splitext (lit "dir.x/file") = (lit "dir.x/file", []).
Proof. reflexivity. Qed.

Example splitext_hidden_file :
  OsPath.splitext (lit "dir/.hidden.pdf") = (lit "dir/.hidden", lit ".pdf").
Proof. reflexivity. Qed.

Example splitext_trailing_dot :
  OsPath.splitext (lit "a.") = (lit "a", lit ".").
Proof. reflexivity. Qed.

Example splitext_more_names :
  map OsPath.splitext
    [lit "a.."; lit "..."; lit "/.pdf"; lit "a.b/c.d.e"; []; lit "x.pdf/";
     lit "a/.."]
  = [(lit "a.", lit "."); (lit "...", []); (lit "/.pdf", []);
     (lit "a.b/c.d", lit ".e"); ([], []); (lit "x.pdf/", []);
     (lit "a/..", [])].
Proof. reflexivity. Qed.

Example strip_extension_names :
  map Ingest.strip_extension
    [lit "manual.pdf"; lit "a.b.pdf"; lit ".pdf"; lit "dir/.hidden.pdf";
     lit "x/..a.pdf"; lit "dir.x/file"; lit "Brakes.PDF"]
  = [lit "manual"; lit "a.b"; lit ".pdf"; lit "dir/.hidden"; lit "x/..a";
     lit "dir.x/file"; lit "Brakes"].
Proof. reflexivity. Qed.

Example chunk_id_scenario_d :
  Ingest.chunk_id (lit "Royal Enfield Classic 350 (2023).pdf") 12
  = lit "Royal_Enfield_Classic_350__2023__chunk_12".
Proof. reflexivity. Qed.

Example chunk_id_scenario_a :
  map (Ingest.chunk_id (lit "oil-change.pdf")) [0; 1; 2]
  = [lit "oil-change_chunk_0"; lit "oil-change_chunk_1";
     lit "oil-change_chunk_2"].
Proof. reflexivity. Qed.

End SplitextExamples.

(* ------------------------------------------------------------------ *)
(** ** Text extraction *)

Section Extraction.

Import Ingest.

Variable PdfReader : list Byte.byte -> result (list (option str)).

Lemma or_empty_page_text : forall t, or_empty t = page_text t.
Proof. intros [[|c s]|]; reflexivity. Qed.

Lemma join_pages :
  forall pages, join NL (map or_empty pages) = pages_joined pages.
Proof.
  induction pages as [|t pages IH]; [reflexivity|].
  destruct pages as [|t' pages].
  - simpl. apply or_empty_page_text.
  - change (join NL (map or_empty (t :: t' :: pages)))
      with (or_empty t ++ NL ++ join NL (map or_empty (t' :: pages))).
    rewrite IH, or_empty_page_text. reflexivity.
Qed.

(** The loop of [fetch_and_extract_pdfs] extracts the PDF blobs in
    listing order and stops at the first one that raises. *)
Lemma fetch_loop_mapM :
  forall blobs docs,
    fetch_loop PdfReader blobs docs
    = (ds <- mapM (extract_blob PdfReader) (filter is_pdf blobs) ;;
       Ok (docs ++ ds)).
Proof.
  induction blobs as [|b blobs IH]; intros docs; simpl.
  - now rewrite app_nil_r.
  - destruct (is_pdf b); simpl; [|apply IH].
    destruct (extract_blob PdfReader b) as [d|e]; simpl; [|reflexivity].
    rewrite IH. destruct (mapM _ _); simpl; [|reflexivity].
    now rewrite <- app_assoc.
Qed.

Lemma mapM_all_ok :
  forall {A B : Type} (f : A -> result B) (g : A -> B) (l : list A),
    (forall a, In a l -> f a = Ok (g a)) -> mapM f l = Ok (map g l).
Proof.
  intros A B f g. induction l as [|a l IH]; intros H; simpl; [reflexivity|].
  rewrite (H a (or_introl eq_refl)). simpl.
  rewrite IH; [reflexivity|]. intros x Hx. apply H. now right.
Qed.

Lemma mapM_first_raise :
  forall {A B : Type} (f : A -> result B) (before : list A) (a : A)
         (after : list A) (e : exn),
    (forall x, In x before -> exists y, f x = Ok y) ->
    f a = Raise e ->
    mapM f (before ++ a :: after) = Raise e.
Proof.
  intros A B f. induction before as [|x before IH]; intros a after e H Ha;
    simpl.
  - now rewrite Ha.
  - destruct (H x (or_introl eq_refl)) as [y ->]. simpl.
    rewrite (IH a after e); [reflexivity| |exact Ha].
    intros z Hz. apply H. now right.
Qed.

End Extraction.

Section ExtractionClaims.

Import Ingest.

Lemma extraction_joins_pages_aux :
  forall (PdfReader : list Byte.byte -> result (list (option str)))
         (b : blob) (pages : list (option str)),
    PdfReader (data b) = Ok pages ->
    extract_blob PdfReader b
    = Ok {| doc_id := name b; doc_text := pages_joined pages |}.
Proof.
  intros PdfReader b pages Hread.
  unfold extract_blob. rewrite Hread. simpl. now rewrite join_pages.
Qed.

(** C5: for a PDF the reader accepts, the extracted document carries the
    texts of its pages in page order with a newline between consecutive
    pages; a page without text counts as the empty string and the
    document is still produced.  A container holding only that PDF
    yields exactly that document. *)
Theorem extraction_joins_pages :
  forall (PdfReader : list Byte.byte -> result (list (option str)))
         (b : blob) (pages : list (option str)),
    PdfReader (data b) = Ok pages ->
    extract_blob PdfReader b
    = Ok {| doc_id := name b; doc_text := pages_joined pages |}
    /\ (is_pdf b = true ->
        fetch_and_extract_pdfs PdfReader [b]
        = Ok [{| doc_id := name b; doc_text := pages_joined pages |}]).
Proof.
  intros PdfReader b pages Hread.
  pose proof (@extraction_joins_pages_aux PdfReader b pages Hread) as Hdoc.
  split; [exact Hdoc|].
  intros Hpdf. unfold fetch_and_extract_pdfs. rewrite fetch_loop_mapM.
  simpl. rewrite Hpdf. simpl. rewrite Hdoc. reflexivity.
Qed.

Lemma extraction_joins_pages_witness :
  sample_reader [x25; x50; x44; x46]
  = Ok [Some (lit "Drain the oil."); None; Some (lit "Refill.")]
  /\ extract_blob sample_reader
       {| name := lit "oil-change.pdf"; data := [x25; x50; x44; x46] |}
     = Ok {| doc_id := lit "oil-change.pdf";
             doc_text := lit "Drain the oil." ++ NL ++ NL ++ lit "Refill." |}.
Proof.
  split; [reflexivity|].
  apply (@extraction_joins_pages sample_reader
           {| name := lit "oil-change.pdf"; data := [x25; x50; x44; x46] |}
           [Some (lit "Drain the oil."); None; Some (lit "Refill.")]).
  reflexivity.
Defined.

(** C4, as stated, fails: with an unreadable PDF between two readable
    ones, the extraction raises and returns no document, where skipping
    the unreadable one would return the two others. *)
Lemma corrupt_pdf_aborts_batch :
  fetch_and_extract_pdfs sample_reader sample_container = Raise PdfReadError
  /\ List.length (readable_documents sample_reader sample_container) = 2
  /\ fetch_and_extract_pdfs sample_reader sample_container
     <> Ok (readable_documents sample_reader sample_container).
Proof.
  split; [reflexivity|]. split; [reflexivity|].
  intros H. vm_compute in H. discriminate.
Qed.

(** C4, amended: the first PDF blob the reader rejects makes
    [fetch_and_extract_pdfs] raise the reader's exception.  The documents
    extracted before it are not returned and the blobs after it are not
    read; blobs that are not PDFs are passed over. *)
Theorem fetch_raises_at_first_unreadable :
  forall (PdfReader : list Byte.byte -> result (list (option str)))
         (before : list blob) (b : blob) (after : list blob) (e : exn),
    forallb (fun x => negb (is_pdf x) || readable PdfReader x) before = true ->
    is_pdf b = true ->
    PdfReader (data b) = Raise e ->
    fetch_and_extract_pdfs PdfReader (before ++ b :: after) = Raise e.
Proof.
  intros PdfReader before b after e Hbefore Hpdf Hbad.
  unfold fetch_and_extract_pdfs. rewrite fetch_loop_mapM.
  rewrite filter_app. simpl. rewrite Hpdf.
  rewrite (mapM_first_raise (extract_blob PdfReader) (filter is_pdf before)
             b (filter is_pdf after) e); [reflexivity| |].
  - intros x Hx. apply filter_In in Hx as [Hin Hx].
    rewrite forallb_forall in Hbefore. specialize (Hbefore x Hin).
    rewrite Hx in Hbefore. simpl in Hbefore.
    unfold readable in Hbefore. unfold extract_blob.
    destruct (PdfReader (data x)); [|discriminate]. simpl. eauto.
  - unfold extract_blob. now rewrite Hbad.
Qed.

Lemma fetch_raises_at_first_unreadable_witness :
  fetch_and_extract_pdfs sample_reader
    ([ {| name := lit "oil-change.pdf"; data := [x25; x50; x44; x46] |};
       {| name := lit "notes.txt"; data := [x68; x69] |} ]
     ++ {| name := lit "broken.pdf"; data := [] |}
     :: [ {| name := lit "Brakes.PDF"; data := [x25; x50; x44; x46] |} ])
  = Raise PdfReadError.
Proof.
  apply (@fetch_raises_at_first_unreadable sample_reader
           [ {| name := lit "oil-change.pdf"; data := [x25; x50; x44; x46] |};
             {| name := lit "notes.txt"; data := [x68; x69] |} ]
           {| name := lit "broken.pdf"; data := [] |}
           [ {| name := lit "Brakes.PDF"; data := [x25; x50; x44; x46] |} ]
           PdfReadError); reflexivity.
Defined.

(** When the reader accepts every PDF blob, the extraction returns one
    document per PDF blob, in listing order. *)
Lemma fetch_all_readable :
  forall (PdfReader : list Byte.byte -> result (list (option str)))
         (pages : blob -> list (option str)) (container : list blob),
    (forall b, In b container -> is_pdf b = true ->
               PdfReader (data b) = Ok (pages b)) ->
    fetch_and_extract_pdfs PdfReader container
    = Ok (map (fun b => {| doc_id := name b;
                           doc_text := pages_joined (pages b) |})
              (filter is_pdf container)).
Proof.
  intros PdfReader pages container H.
  unfold fetch_and_extract_pdfs. rewrite fetch_loop_mapM.
  rewrite (mapM_all_ok (extract_blob PdfReader)
             (fun b => {| doc_id := name b;
                          doc_text := pages_joined (pages b) |})).
  - reflexivity.
  - intros b Hb. apply filter_In in Hb as [Hin Hpdf].
    apply (@extraction_joins_pages_aux PdfReader b (pages b)). now apply H.
Qed.

End ExtractionClaims.

(* ------------------------------------------------------------------ *)
(** ** Answer synthesis *)

Section Synthesis.

Lemma mapM_Forall2 :
  forall {A B : Type} (f : A -> result B) (l : list A) (l' : list B),
    mapM f l = Ok l' <-> Forall2 (fun a b => f a = Ok b) l l'.
Proof.
  intros A B f. induction l as [|a l IH]; intros l'; simpl; split.
  - intros H. injection H as <-. constructor.
  - intros H. inversion H. reflexivity.
  - destruct (f a) as [b|e] eqn:Ea; simpl; [|discriminate].
    destruct (mapM f l) as [bs|e] eqn:El; simpl; [|discriminate].
    intros H. injection H as <-. constructor; [exact Ea|].
    now apply IH.
  - intros H. inversion H as [|a0 b l0 bs Ha Hl]; subst.
    rewrite Ha. simpl. apply IH in Hl. rewrite Hl. reflexivity.
Qed.

Lemma sliced_texts_of_strings :
  forall hits : list (json * str),
    mapM (fun c => Py.sliced_text (snd c))
         (map (fun h => (fst h, JStr (snd h))) hits)
    = Ok (map snd hits).
Proof.
  induction hits as [|h hits IH]; simpl; [reflexivity|].
  rewrite IH. reflexivity.
Qed.

Lemma context_block_from :
  forall texts i,
    join (NL ++ NL) (map App.labelled (enumerate_from i texts))
    = Design.context_from i texts.
Proof.
  induction texts as [|t texts IH]; intros i; [reflexivity|].
  destruct texts as [|t' texts].
  - reflexivity.
  - change (join (NL ++ NL)
              (map App.labelled (enumerate_from i (t :: t' :: texts))))
      with (App.labelled (i, t) ++ (NL ++ NL)
            ++ join (NL ++ NL)
                 (map App.labelled (enumerate_from (S i) (t' :: texts)))).
    rewrite IH. unfold App.labelled. simpl fst. simpl snd.
    change (Design.context_from i (t :: t' :: texts))
      with (lit "[" ++ str_of_int i ++ lit "] " ++ t ++ NL ++ NL
            ++ Design.context_from (S i) (t' :: texts)).
    now rewrite <- !app_assoc.
Qed.

(** C1: with no hits, whatever the question, the synthesizer returns the
    fixed message and makes no call: the trace of outgoing calls is the
    one it was given, so the completion endpoint is not invoked. *)
Theorem no_hits_fixed_answer :
  forall (e : env) (question : str) (tr : list event),
    App.answer_with_gpt4o e question [] tr
    = (Ok App.no_documentation_message, tr).
Proof. reflexivity. Qed.

(** C6: with at least one hit, the synthesizer makes exactly one call,
    to the completion endpoint, with two messages: the fixed system
    message, then a user message made of the context block (each hit's
    content labelled [[i]] from 0, in ranking order, blank lines in
    between), the question and the closing directive.  Its result is the
    stripped reply. *)
Theorem prompt_from_hits :
  forall (e : env) (question : str) (hits : list (json * str))
         (tr : list event),
    hits <> [] ->
    let messages :=
      [ {| role := lit "system";
           msg_content :=
             lit "You are a certified Royal Enfield mechanic. Answer clearly and step-by-step." |};
        {| role := lit "user";
           msg_content :=
             lit "Context:" ++ NL ++ Design.context_from 0 (map snd hits)
             ++ NL ++ NL ++ lit "Question: " ++ question ++ NL ++ NL
             ++ lit "Answer in a concise, step-by-step format." |} ] in
    App.answer_with_gpt4o e question
      (map (fun h => (fst h, JStr (snd h))) hits) tr
    = (match chat_completions_create e (CHAT_MODEL e) messages
               App.temperature App.max_tokens with
       | Ok (Some reply) => Ok (strip reply)
       | Ok None => Raise AttributeError
       | Raise x => Raise x
       end,
       tr ++ [ChatCompletionsCreate (CHAT_MODEL e) messages
                App.temperature App.max_tokens]).
Proof.
  intros e question hits tr Hne messages.
  destruct hits as [|h hits]; [contradiction|].
  unfold App.answer_with_gpt4o.
  change (map (fun h0 => (fst h0, JStr (snd h0))) (h :: hits))
    with ((fst h, JStr (snd h))
          :: map (fun h0 => (fst h0, JStr (snd h0))) hits).
  cbv beta iota.
  change ((fst h, JStr (snd h))
          :: map (fun h0 => (fst h0, JStr (snd h0))) hits)
    with (map (fun h0 => (fst h0, JStr (snd h0))) (h :: hits)).
  unfold mbind at 1. unfold lift at 1.
  rewrite sliced_texts_of_strings.
  unfold App.context_block. rewrite context_block_from.
  unfold mbind, call, App.user_message, App.system_message.
  fold messages.
  destruct (chat_completions_create e (CHAT_MODEL e) messages
              App.temperature App.max_tokens) as [[reply|]|x]; reflexivity.
Qed.

Lemma prompt_from_hits_witness :
  [(JStr (lit "oil-change_chunk_0"), lit "Drain the oil.");
   (JStr (lit "oil-change_chunk_1"), lit "Refill.")] <> []
  /\ App.answer_with_gpt4o (Sample.deployment Sample.hits)
       (lit "How do I change the oil?") Sample.pairs []
     = (Ok (lit "1. Drain the oil. 2. Refill."),
        [ChatCompletionsCreate (lit "gpt-4o")
           [App.system_message;
            {| role := lit "user";
               msg_content :=
                 lit "Context:" ++ NL
                 ++ lit "[0] Drain the oil." ++ NL ++ NL
                 ++ lit "[1] Refill." ++ NL ++ NL
                 ++ lit "Question: How do I change the oil?" ++ NL ++ NL
                 ++ lit "Answer in a concise, step-by-step format." |}]
           App.temperature 512]).
Proof.
  split; [discriminate|].
  apply (prompt_from_hits (Sample.deployment Sample.hits)
           (lit "How do I change the oil?")
           [(JStr (lit "oil-change_chunk_0"), lit "Drain the oil.");
            (JStr (lit "oil-change_chunk_1"), lit "Refill.")] []).
  discriminate.
Defined.

(** C9: a run of the script in which Ask is pressed on an empty question
    makes no call at all (no embedding, no search, no completion) and
    leaves the history as it was, empty if it was not there yet. *)
Theorem empty_question_does_nothing :
  forall (e : env) (handle : option Z) (history : option (list (str * str)))
         (tr : list event),
    App.app e handle [] true history tr
    = (Ok (match history with Some h => h | None => [] end), tr).
Proof. reflexivity. Qed.

End Synthesis.

(* ------------------------------------------------------------------ *)
(** ** Computations only append to the trace *)

Section Traces.

Lemma extends_lift : forall {A : Type} (r : result A), extends (lift r).
Proof. intros A r tr. exists []. simpl. now rewrite app_nil_r. Qed.

Lemma extends_ret : forall {A : Type} (a : A), extends (ret a).
Proof. intros A a tr. exists []. simpl. now rewrite app_nil_r. Qed.

Lemma extends_call :
  forall {A : Type} (ev : event) (r : result A), extends (call ev r).
Proof. intros A ev r tr. exists [ev]. reflexivity. Qed.

Lemma extends_mbind :
  forall {A B : Type} (c : M A) (k : A -> M B),
    extends c -> (forall a, extends (k a)) -> extends (mbind c k).
Proof.
  intros A B c k Hc Hk tr. unfold mbind.
  destruct (Hc tr) as [out Hout].
  destruct (c tr) as [[a|e] tr'] eqn:E; simpl in Hout; subst tr'.
  - destruct (Hk a (tr ++ out)) as [out' Hout'].
    exists (out ++ out'). now rewrite Hout', app_assoc.
  - exists out. reflexivity.
Qed.

Lemma extends_forM_ :
  forall {A : Type} (f : A -> M unit) (l : list A),
    (forall a, extends (f a)) -> extends (forM_ f l).
Proof.
  intros A f l Hf. induction l as [|a l IH]; simpl.
  - apply extends_ret.
  - apply extends_mbind; [apply Hf | intros _; exact IH].
Qed.

Lemma extends_print_hit : forall h, extends (SearchRest.print_hit h).
Proof.
  intros h. unfold SearchRest.print_hit.
  repeat (apply extends_mbind; [|intros ?]);
    try apply extends_lift; apply extends_call.
Qed.

End Traces.

(* ------------------------------------------------------------------ *)
(** ** Vector retrieval *)

Section Retrieval.

Lemma hit_pair_spec :
  forall h p, App.hit_pair h = Ok p <-> Design.is_hit_of h p.
Proof.
  intros h [i c]. unfold App.hit_pair, Design.is_hit_of, Py.getitem. split.
  - destruct h as [| | | | | |fields]; cbn [bind]; try discriminate.
    destruct (dict_lookup (lit "id") fields) as [vi|] eqn:Ei; cbn [bind];
      [|discriminate].
    destruct (dict_lookup (lit "content") fields) as [vc|] eqn:Ec;
      cbn [bind]; [|discriminate].
    intros H. injection H as <- <-. exists fields. auto.
  - intros [fields [-> [Hi Hc]]]. cbn [fst snd] in Hi, Hc.
    rewrite Hi. cbn [bind]. rewrite Hc. reflexivity.
Qed.

Lemma mapM_hit_pair :
  forall elems pairs,
    mapM App.hit_pair elems = Ok pairs <-> Forall2 Design.is_hit_of elems pairs.
Proof.
  intros elems pairs. rewrite mapM_Forall2. split; intros H.
  - induction H; constructor; auto. now apply hit_pair_spec.
  - induction H; constructor; auto. now apply hit_pair_spec.
Qed.

Lemma status_below_400_passes :
  forall resp, (status_code resp < 400)%Z -> raise_for_status resp = Ok tt.
Proof.
  intros resp H. unfold raise_for_status.
  destruct (400 <=? status_code resp)%Z eqn:E; [|reflexivity].
  apply Z.leb_le in E. lia.
Qed.

(** What [vector_search] of app.py does once the embedding, the request
    and the decoding of a JSON object have gone through. *)
Lemma app_vector_search_run :
  forall (e : env) (query : str) (k_arg : option Z) (emb : list float)
         (resp : response) (fields : list (str * json)) (tr : list event),
    embeddings_create e (EMBED_MODEL e) [query] = Ok emb ->
    requests_post e (search_url e)
      (App.search_body emb (arg_or k_arg App.vector_search_k_default))
      (search_headers e) = Ok resp ->
    (status_code resp < 400)%Z ->
    json_body resp = Ok (JObj fields) ->
    App.vector_search e query k_arg tr
    = (match dict_lookup (lit "value") fields with
       | Some v => _ <- Py.len v ;; elems <- Py.iter v ;;
                   mapM App.hit_pair elems
       | None => Ok []
       end,
       tr ++ [EmbeddingsCreate (EMBED_MODEL e) [query];
              RequestsPost (search_url e)
                (App.search_body emb
                   (arg_or k_arg App.vector_search_k_default))
                (search_headers e)]).
Proof.
  intros e query k_arg emb resp fields tr Hemb Hpost Hstatus Hjson.
  unfold App.vector_search, mbind, call, lift.
  rewrite Hemb, Hpost, (status_below_400_passes resp Hstatus), Hjson.
  rewrite <- app_assoc. simpl.
  destruct (dict_lookup _ fields) as [v|]; simpl.
  - destruct (Py.len v); simpl; [|reflexivity].
    destruct (Py.iter v); simpl; reflexivity.
  - reflexivity.
Qed.

(** The two calls both scripts make first, whatever the service
    answers. *)
Lemma rest_vector_search_calls :
  forall (e : env) (query : str) (k_arg : option Z) (emb : list float)
         (tr : list event),
    embeddings_create e (EMBED_MODEL e) [query] = Ok emb ->
    exists r out,
      SearchRest.vector_search e query k_arg tr
      = (r, tr ++ [EmbeddingsCreate (EMBED_MODEL e) [query];
                   RequestsPost (search_url e)
                     (SearchRest.search_payload emb
                        (arg_or k_arg SearchRest.vector_search_k_default))
                     (search_headers e)] ++ out).
Proof.
  intros e query k_arg emb tr Hemb.
  unfold SearchRest.vector_search.
  unfold mbind at 1. unfold call at 1. rewrite Hemb.
  unfold mbind at 1. unfold call at 1.
  destruct (requests_post e (search_url e) _ (search_headers e)) as [r|x].
  - match goal with
    | |- exists _ _, ?c ?t = _ =>
        assert (Hext : extends c)
    end.
    { repeat (apply extends_mbind; [|intros ?]); try apply extends_lift.
      apply extends_forM_. apply extends_print_hit. }
    destruct (Hext ((tr ++ [EmbeddingsCreate (EMBED_MODEL e) [query]])
                    ++ [RequestsPost (search_url e)
                          (SearchRest.search_payload emb
                             (arg_or k_arg
                                SearchRest.vector_search_k_default))
                          (search_headers e)])) as [out Hout].
    match goal with
    | |- exists _ _, ?c ?t = _ => destruct (c t) as [res tr'] eqn:E
    end.
    simpl in Hout. subst tr'. exists res, out.
    now rewrite <- !app_assoc.
  - exists (Raise x), []. now rewrite <- !app_assoc.
Qed.

(** The two calls [vector_search] of app.py makes, whatever the service
    answers: everything after the request is local. *)
Lemma app_vector_search_calls :
  forall (e : env) (query : str) (k_arg : option Z) (emb : list float)
         (tr : list event),
    embeddings_create e (EMBED_MODEL e) [query] = Ok emb ->
    snd (App.vector_search e query k_arg tr)
    = tr ++ [EmbeddingsCreate (EMBED_MODEL e) [query];
             RequestsPost (search_url e)
               (App.search_body emb
                  (arg_or k_arg App.vector_search_k_default))
               (search_headers e)].
Proof.
  intros e query k_arg emb tr Hemb.
  unfold App.vector_search, mbind, call, lift. rewrite Hemb.
  rewrite <- app_assoc.
  repeat match goal with
         | |- context [match ?x with Ok _ => _ | Raise _ => _ end] =>
             destruct x
         end; reflexivity.
Qed.

Lemma extends_answer :
  forall e question chunks, extends (App.answer_with_gpt4o e question chunks).
Proof.
  intros e question chunks. unfold App.answer_with_gpt4o.
  destruct chunks as [|c chunks]; [apply extends_ret|].
  apply extends_mbind; [apply extends_lift|]. intros texts.
  apply extends_mbind; [apply extends_call|]. intros [reply|].
  - apply extends_ret.
  - apply extends_lift.
Qed.

(** C7: given a count [k], [vector_search] of app.py embeds the query
    and posts the body [{"top": k, "vectorQueries": [{"fields":
    "contentVector", "vector": <embedding>, "k": k, "kind": "vector",
    "exhaustive": false}]}]; on a successful response whose [value] array
    holds objects with [id] and [content], it returns their
    [(id, content)] pairs in response order.  The script
    vector_searchrest.py embeds the query and posts the alternate body
    [{"search": "*", "select": "id,content", "vectorQueries":
    [{"vector": <embedding>, "fields": "contentVector", "k": k,
    "kind": "vector"}]}], for the same vector and the same [k]. *)
Theorem vector_search_request_and_hits :
  forall (e : env) (query : str) (k : Z) (emb : list float)
         (resp : response) (fields : list (str * json))
         (elems : list json) (pairs : list (json * json))
         (tr : list event),
    embeddings_create e (EMBED_MODEL e) [query] = Ok emb ->
    requests_post e (search_url e) (Design.primary_body emb k)
      (search_headers e) = Ok resp ->
    (200 <= status_code resp < 300)%Z ->
    json_body resp = Ok (JObj fields) ->
    dict_lookup (lit "value") fields = Some (JArr elems) ->
    Forall2 Design.is_hit_of elems pairs ->
    App.vector_search e query (Some k) tr
    = (Ok pairs,
       tr ++ [EmbeddingsCreate (EMBED_MODEL e) [query];
              RequestsPost (search_url e) (Design.primary_body emb k)
                (search_headers e)])
    /\ exists r out,
         SearchRest.vector_search e query (Some k) tr
         = (r, tr ++ [EmbeddingsCreate (EMBED_MODEL e) [query];
                      RequestsPost (search_url e)
                        (Design.alternate_body emb k)
                        (search_headers e)] ++ out).
Proof.
  intros e query k emb resp fields elems pairs tr
         Hemb Hpost Hstatus Hjson Hvalue Hhits.
  split.
  - rewrite (app_vector_search_run e query (Some k) emb resp fields tr
               Hemb Hpost); [|lia|exact Hjson].
    rewrite Hvalue. cbn [Py.len Py.iter bind].
    apply mapM_hit_pair in Hhits. rewrite Hhits. reflexivity.
  - destruct (rest_vector_search_calls e query (Some k) emb tr Hemb)
      as [r [out Hrun]].
    exists r, out. exact Hrun.
Qed.

Lemma vector_search_request_and_hits_witness :
  App.vector_search (Sample.deployment Sample.hits)
    (lit "How do I change the oil?") (Some 4%Z) []
  = (Ok Sample.pairs,
     [EmbeddingsCreate (lit "embed") [lit "How do I change the oil?"];
      RequestsPost (lit "https://search/indexes/manuals/docs/search?api-version=2023-11-01")
        (Design.primary_body [0.5%float; 0.25%float] 4)
        [(lit "Content-Type", lit "application/json");
         (lit "api-key", lit "key")]])
  /\ exists r out,
       SearchRest.vector_search (Sample.deployment Sample.hits)
         (lit "How do I change the oil?") (Some 4%Z) []
       = (r,
          [] ++ [EmbeddingsCreate (lit "embed")
                   [lit "How do I change the oil?"];
                 RequestsPost (lit "https://search/indexes/manuals/docs/search?api-version=2023-11-01")
                   (Design.alternate_body [0.5%float; 0.25%float] 4)
                   [(lit "Content-Type", lit "application/json");
                    (lit "api-key", lit "key")]] ++ out).
Proof.
  apply (vector_search_request_and_hits (Sample.deployment Sample.hits)
           (lit "How do I change the oil?") 4 [0.5%float; 0.25%float]
           {| status_code := 200; json_body := Ok Sample.hits |}
           [(lit "@odata.context", JStr (lit "https://search/$metadata"));
            (lit "value",
             JArr [JObj [(lit "@search.score", JFloat 0.5%float);
                         (lit "id", JStr (lit "oil-change_chunk_0"));
                         (lit "content", JStr (lit "Drain the oil."))];
                   JObj [(lit "id", JStr (lit "oil-change_chunk_1"));
                         (lit "content", JStr (lit "Refill."))]])]
           [JObj [(lit "@search.score", JFloat 0.5%float);
                  (lit "id", JStr (lit "oil-change_chunk_0"));
                  (lit "content", JStr (lit "Drain the oil."))];
            JObj [(lit "id", JStr (lit "oil-change_chunk_1"));
                  (lit "content", JStr (lit "Refill."))]]
           Sample.pairs []).
  - reflexivity.
  - reflexivity.
  - simpl. lia.
  - reflexivity.
  - reflexivity.
  - repeat (constructor; [eexists; repeat split; reflexivity|]).
    constructor.
Defined.

(** C10: when the service answers with a 2xx status and a JSON object
    without [value], [vector_search] of app.py returns the empty hit
    sequence and does not raise; when [value] is an array, the function
    returns a list exactly when every element is an object with [id] and
    [content], and that list has one pair per element, in response
    order.  The script vector_searchrest.py prints nothing and does not
    raise when [value] is missing. *)
Theorem missing_value_gives_no_hits :
  forall (e : env) (query : str) (k : Z) (emb : list float)
         (resp : response) (fields : list (str * json)) (tr : list event),
    embeddings_create e (EMBED_MODEL e) [query] = Ok emb ->
    (200 <= status_code resp < 300)%Z ->
    json_body resp = Ok (JObj fields) ->
    (requests_post e (search_url e) (App.search_body emb k)
       (search_headers e) = Ok resp ->
     (dict_lookup (lit "value") fields = None ->
      App.vector_search e query (Some k) tr
      = (Ok [],
         tr ++ [EmbeddingsCreate (EMBED_MODEL e) [query];
                RequestsPost (search_url e) (App.search_body emb k)
                  (search_headers e)]))
     /\ (forall elems pairs,
           dict_lookup (lit "value") fields = Some (JArr elems) ->
           (fst (App.vector_search e query (Some k) tr) = Ok pairs
            <-> Forall2 Design.is_hit_of elems pairs)
           /\ (fst (App.vector_search e query (Some k) tr) = Ok pairs ->
               List.length pairs = List.length elems)))
    /\ (requests_post e (search_url e) (SearchRest.search_payload emb k)
          (search_headers e) = Ok resp ->
        dict_lookup (lit "value") fields = None ->
        SearchRest.vector_search e query (Some k) tr
        = (Ok tt,
           tr ++ [EmbeddingsCreate (EMBED_MODEL e) [query];
                  RequestsPost (search_url e)
                    (SearchRest.search_payload emb k) (search_headers e)])).
Proof.
  intros e query k emb resp fields tr Hemb Hstatus Hjson.
  assert (Hpass : raise_for_status resp = Ok tt)
    by (apply status_below_400_passes; lia).
  split.
  - intros Hpost.
    pose proof (app_vector_search_run e query (Some k) emb resp fields tr
                  Hemb Hpost ltac:(lia) Hjson) as Hrun.
    split.
    + intros Hnone. rewrite Hrun, Hnone. reflexivity.
    + intros elems pairs Hvalue. rewrite Hrun, Hvalue.
      cbn [fst Py.len Py.iter bind].
      split; [apply mapM_hit_pair|].
      intros H. apply mapM_hit_pair in H.
      symmetry. eapply Forall2_length. exact H.
  - intros Hpost Hnone.
    unfold SearchRest.vector_search, mbind, call, lift.
    cbn [arg_or]. rewrite Hemb, Hpost, Hpass, Hjson.
    unfold Py.get. rewrite Hnone. rewrite <- app_assoc. reflexivity.
Qed.

Lemma missing_value_gives_no_hits_witness :
  App.vector_search (Sample.deployment Sample.no_value)
    (lit "How do I change the oil?") (Some 4%Z) []
  = (Ok [],
     [EmbeddingsCreate (lit "embed") [lit "How do I change the oil?"];
      RequestsPost (search_url (Sample.deployment Sample.no_value))
        (App.search_body [0.5%float; 0.25%float] 4)
        (search_headers (Sample.deployment Sample.no_value))])
  /\ SearchRest.vector_search (Sample.deployment Sample.no_value)
       (lit "How do I change the oil?") (Some 4%Z) []
     = (Ok tt,
        [EmbeddingsCreate (lit "embed") [lit "How do I change the oil?"];
         RequestsPost (search_url (Sample.deployment Sample.no_value))
           (SearchRest.search_payload [0.5%float; 0.25%float] 4)
           (search_headers (Sample.deployment Sample.no_value))]).
Proof.
  destruct (missing_value_gives_no_hits
              (Sample.deployment Sample.no_value)
              (lit "How do I change the oil?") 4 [0.5%float; 0.25%float]
              {| status_code := 200; json_body := Ok Sample.no_value |}
              [(lit "@odata.context", JStr (lit "https://search/$metadata"))]
              [] eq_refl ltac:(simpl; lia) eq_refl) as [Happ Hrest].
  split.
  - apply (proj1 (Happ eq_refl)). reflexivity.
  - apply (Hrest eq_refl). reflexivity.
Defined.

End Retrieval.

(* ------------------------------------------------------------------ *)
(** ** Where the result count comes from *)

Section ResultCount.

Lemma slider_in_range :
  forall lo hi value handle,
    (lo <= value <= hi)%Z ->
    (lo <= App.slider lo hi value handle <= hi)%Z.
Proof.
  intros lo hi value [v|] H; unfold App.slider; lia.
Qed.

(** C8, as stated, fails: the default of [vector_search] is 7 in app.py
    and 5 in vector_searchrest.py, not 4; called without [k], app.py's
    function asks the service for 7 results. *)
Lemma retrieval_defaults_are_not_four :
  App.slider 1 8 4 None = 4%Z
  /\ snd (App.vector_search (Sample.deployment Sample.hits)
            (lit "How do I change the oil?") None [])
     = [EmbeddingsCreate (lit "embed") [lit "How do I change the oil?"];
        RequestsPost (search_url (Sample.deployment Sample.hits))
          (Design.primary_body [0.5%float; 0.25%float] 7)
          (search_headers (Sample.deployment Sample.hits))]
  /\ App.vector_search_k_default <> 4%Z
  /\ SearchRest.vector_search_k_default <> 4%Z.
Proof.
  repeat split; try reflexivity; discriminate.
Qed.

(** C8, amended: the interactive control is the only place that bounds
    [k]: its value lies in 1..8, is 4 until the user moves it, and is
    what the app passes to [vector_search].  The retrieval functions
    send the [k] they are given as it is; without one, app.py's sends 7
    and vector_searchrest.py's sends 5. *)
Theorem k_bounded_at_control_only :
  forall (e : env) (query : str) (emb : list float) (tr : list event),
    embeddings_create e (EMBED_MODEL e) [query] = Ok emb ->
    query <> [] ->
    (forall handle, (1 <= App.slider 1 8 4 handle <= 8)%Z)
    /\ App.slider 1 8 4 None = 4%Z
    /\ (forall handle history, exists r out,
          App.app e handle query true history tr
          = (r, tr ++ [EmbeddingsCreate (EMBED_MODEL e) [query];
                       RequestsPost (search_url e)
                         (Design.primary_body emb (App.slider 1 8 4 handle))
                         (search_headers e)] ++ out))
    /\ (forall k_arg,
          snd (App.vector_search e query k_arg tr)
          = tr ++ [EmbeddingsCreate (EMBED_MODEL e) [query];
                   RequestsPost (search_url e)
                     (Design.primary_body emb
                        (match k_arg with Some k => k | None => 7%Z end))
                     (search_headers e)])
    /\ (forall k_arg, exists r out,
          SearchRest.vector_search e query k_arg tr
          = (r, tr ++ [EmbeddingsCreate (EMBED_MODEL e) [query];
                       RequestsPost (search_url e)
                         (SearchRest.search_payload emb
                            (match k_arg with Some k => k | None => 5%Z end))
                         (search_headers e)] ++ out)).
Proof.
  intros e query emb tr Hemb Hquery.
  split; [intros handle; apply slider_in_range; lia|].
  split; [reflexivity|].
  split; [|split].
  - intros handle history. unfold App.app.
    destruct query as [|c query]; [contradiction|]. cbn [truthy].
    unfold mbind at 1.
    pose proof (app_vector_search_calls e (c :: query)
                  (Some (App.slider 1 8 4 handle)) emb tr Hemb) as Hcalls.
    destruct (App.vector_search e (c :: query)
                (Some (App.slider 1 8 4 handle)) tr) as [[hits|x] tr'].
    + simpl in Hcalls. subst tr'.
      match goal with
      | |- exists _ _, ?c ?t = _ =>
          assert (Hext : extends c);
          [|destruct (Hext t) as [out Hout];
            destruct (c t) as [res tr''] eqn:E]
      end.
      { apply extends_mbind; [apply extends_answer|].
        intros answer. apply extends_ret. }
      simpl in Hout. subst tr''. exists res, out.
      now rewrite <- app_assoc.
    + simpl in Hcalls. subst tr'. exists (Raise x), [].
      now rewrite app_nil_r.
  - intros k_arg. rewrite (app_vector_search_calls e query k_arg emb tr Hemb).
    destruct k_arg; reflexivity.
  - intros k_arg.
    destruct (rest_vector_search_calls e query k_arg emb tr Hemb)
      as [r [out Hrun]].
    exists r, out. rewrite Hrun. destruct k_arg; reflexivity.
Qed.

Lemma k_bounded_at_control_only_witness :
  (1 <= App.slider 1 8 4 (Some 11%Z) <= 8)%Z
  /\ snd (App.vector_search (Sample.deployment Sample.hits)
            (lit "How do I change the oil?") (Some 100%Z) [])
     = [EmbeddingsCreate (lit "embed") [lit "How do I change the oil?"];
        RequestsPost (search_url (Sample.deployment Sample.hits))
          (Design.primary_body [0.5%float; 0.25%float] 100)
          (search_headers (Sample.deployment Sample.hits))].
Proof.
  destruct (k_bounded_at_control_only (Sample.deployment Sample.hits)
              (lit "How do I change the oil?") [0.5%float; 0.25%float] []
              eq_refl ltac:(discriminate))
    as [Hrange [_ [_ [Hsent _]]]].
  split.
  - apply Hrange.
  - apply (Hsent (Some 100%Z)).
Defined.

End ResultCount.


(* ================================================================== *)
(** * Further properties of the ingestion *)

Section PdfSuffix.

Import Ingest Notions.

Lemma endswith_iff :
  forall s suffix : str,
    endswith s suffix = true <-> exists pre, s = pre ++ suffix.
Proof.
  intros s suffix. unfold endswith.
  rewrite andb_true_iff, Nat.leb_le, str_eqb_eq. split.
  - intros [_ Heq].
    pose proof (firstn_skipn (List.length s - List.length suffix) s) as H.
    rewrite Heq in H. eexists. symmetry. exact H.
  - intros [pre ->]. rewrite length_app. split; [lia|].
    replace (List.length pre + List.length suffix - List.length suffix)%nat
      with (List.length pre) by lia.
    now rewrite skipn_app, skipn_all, Nat.sub_diag.
Qed.

(** Which characters [lower] can turn into a given last character of
    [".pdf"]: itself, or its capital. *)
Lemma lower_char_last :
  forall (c x : char) (pre pre' : str),
    (x = 46 \/ x = 112 \/ x = 100 \/ x = 102)%N ->
    pre ++ lower_char c = pre' ++ [x] ->
    pre = pre' /\ (c = x \/ ((c + 32)%N = x /\ (65 <= c <= 90)%N)).
Proof.
  intros c x pre pre' Hx H. unfold lower_char in H.
  destruct ((65 <=? c)%N && (c <=? 90)%N) eqn:Eup.
  - apply andb_true_iff in Eup as [Hlo Hhi].
    apply N.leb_le in Hlo. apply N.leb_le in Hhi.
    apply app_inj_tail in H as [-> E]. split; [reflexivity|]. right. lia.
  - destruct (N.eqb c 8490) eqn:Ek.
    + apply app_inj_tail in H as [_ E]. lia.
    + destruct (N.eqb c 304) eqn:Ei.
      * change [105%N; 775%N] with ([105%N] ++ [775%N]) in H.
        rewrite app_assoc in H. apply app_inj_tail in H as [_ E]. lia.
      * apply app_inj_tail in H as [-> E]. auto.
Qed.

Lemma lower_snoc_inv :
  forall (n pre : str) (x : char),
    (x = 46 \/ x = 112 \/ x = 100 \/ x = 102)%N ->
    lower n = pre ++ [x] ->
    exists n' c,
      n = n' ++ [c] /\ lower n' = pre
      /\ (c = x \/ ((c + 32)%N = x /\ (65 <= c <= 90)%N)).
Proof.
  intros n pre x Hx H.
  destruct n as [|c0 n0] using rev_ind.
  - simpl in H. destruct pre; discriminate.
  - clear IHn0. unfold lower in H. rewrite flat_map_app in H.
    cbn [flat_map] in H. rewrite app_nil_r in H.
    apply lower_char_last in H; [|exact Hx]. destruct H as [Hpre Hc].
    exists n0, c0. auto.
Qed.

(** A blob is ingested exactly when its name ends in [.pdf], whatever
    the case of the three letters. *)
Theorem is_pdf_suffix :
  forall b : blob, is_pdf b = true <-> has_pdf_suffix (name b).
Proof.
  intros b. unfold is_pdf, has_pdf_suffix. rewrite endswith_iff. split.
  - intros [pre H].
    change (lit ".pdf") with ([46%N; 112%N; 100%N] ++ [102%N]) in H.
    rewrite app_assoc in H.
    apply lower_snoc_inv in H; [|lia]. destruct H as [n3 [c3 [-> [H H3]]]].
    change [46%N; 112%N; 100%N] with ([46%N; 112%N] ++ [100%N]) in H.
    rewrite app_assoc in H.
    apply lower_snoc_inv in H; [|lia]. destruct H as [n2 [c2 [-> [H H2]]]].
    change [46%N; 112%N] with ([46%N] ++ [112%N]) in H.
    rewrite app_assoc in H.
    apply lower_snoc_inv in H; [|lia]. destruct H as [n1 [c1 [-> [H H1]]]].
    apply lower_snoc_inv in H; [|lia]. destruct H as [n0 [c0 [-> [_ H0]]]].
    exists n0, c1, c2, c3. rewrite <- !app_assoc. cbn [app].
    assert (c0 = 46%N) as -> by lia.
    repeat split; lia.
  - intros [stem [c1 [c2 [c3 [-> [H1 [H2 H3]]]]]]].
    exists (lower stem). unfold lower. rewrite flat_map_app. f_equal.
    destruct H1 as [-> | ->], H2 as [-> | ->], H3 as [-> | ->]; reflexivity.
Qed.

End PdfSuffix.

Section FetchFurther.

Import Ingest Notions.

Lemma mapM_ext_in :
  forall {A B : Type} (f g : A -> result B) (l : list A),
    (forall a, In a l -> f a = g a) -> mapM f l = mapM g l.
Proof.
  intros A B f g. induction l as [|a l IH]; intros H; simpl; [reflexivity|].
  rewrite (H a (or_introl eq_refl)), IH; [reflexivity|].
  intros x Hx. apply H. now right.
Qed.

(** The reader is applied to PDF blobs only: two readers that agree on
    the bytes of the PDF blobs of a container give the same outcome,
    however they differ on the other blobs. *)
Theorem fetch_reads_only_pdfs :
  forall (R R' : list Byte.byte -> result (list (option str)))
         (container : list blob),
    (forall b, In b container -> is_pdf b = true -> R (data b) = R' (data b)) ->
    fetch_and_extract_pdfs R container = fetch_and_extract_pdfs R' container.
Proof.
  intros R R' container H. unfold fetch_and_extract_pdfs.
  rewrite !fetch_loop_mapM.
  rewrite (mapM_ext_in (extract_blob R) (extract_blob R')); [reflexivity|].
  intros b Hb. apply filter_In in Hb as [Hin Hpdf].
  unfold extract_blob. now rewrite (H b Hin Hpdf).
Qed.

Lemma fetch_reads_only_pdfs_witness :
  fetch_and_extract_pdfs sample_reader SampleIngest.readable_container
  = fetch_and_extract_pdfs SampleIngest.picky_reader
      SampleIngest.readable_container.
Proof.
  apply (fetch_reads_only_pdfs sample_reader SampleIngest.picky_reader
           SampleIngest.readable_container).
  intros b [<-|[<-|[<-|[]]]] Hpdf; try reflexivity.
  vm_compute in Hpdf. discriminate.
Defined.

Lemma fetch_all_readable_witness :
  fetch_and_extract_pdfs sample_reader SampleIngest.readable_container
  = Ok [ {| doc_id := lit "oil-change.pdf"; doc_text := SampleIngest.manual |};
         {| doc_id := lit "Brakes.PDF"; doc_text := SampleIngest.manual |} ].
Proof.
  apply (fetch_all_readable sample_reader
           (fun _ => [Some (lit "Drain the oil."); None; Some (lit "Refill.")])
           SampleIngest.readable_container).
  intros b [<-|[<-|[<-|[]]]] Hpdf; reflexivity.
Defined.

End FetchFurther.

Section IndexFurther.

Import Ingest Notions.

Variable split_text : str -> list str.
Variable embeddings_create : str -> list str -> result (list float).
Variable EMBED_MODEL : str.

Lemma in_enumerate_from :
  forall (A : Type) (l : list A) (n i : nat) (a : A),
    In (i, a) (enumerate_from n l) -> In a l.
Proof.
  intros A. induction l as [|x l IH]; intros n i a H; simpl in H; [easy|].
  destruct H as [H|H]; [injection H as _ ->; now left|].
  right. eapply IH. exact H.
Qed.

Lemma enumerate_from_app :
  forall (A : Type) (l l' : list A) (n : nat),
    enumerate_from n (l ++ l')
    = enumerate_from n l ++ enumerate_from (n + List.length l) l'.
Proof.
  intros A. induction l as [|x l IH]; intros l' n; simpl.
  - now rewrite Nat.add_0_r.
  - rewrite IH. now rewrite Nat.add_succ_r.
Qed.

Lemma index_chunks_ok :
  forall (vec : str -> list float) base chunks batch,
    (forall ic, In ic chunks ->
                embeddings_create EMBED_MODEL [snd ic] = Ok (vec (snd ic))) ->
    index_chunks embeddings_create EMBED_MODEL base chunks batch
    = Ok (batch
          ++ map (fun ic => {| id := safe_id base (fst ic);
                               content := snd ic;
                               contentVector := vec (snd ic) |}) chunks).
Proof.
  intros vec base. induction chunks as [|[i chunk] chunks IH];
    intros batch H; simpl.
  - now rewrite app_nil_r.
  - pose proof (H (i, chunk) (or_introl eq_refl)) as Hc. simpl in Hc.
    rewrite Hc. simpl.
    rewrite IH; [now rewrite <- app_assoc|].
    intros ic Hic. apply H. now right.
Qed.

Lemma index_docs_ok :
  forall (vec : str -> list float) docs batch,
    (forall doc chunk,
        In doc docs -> In chunk (split_text (doc_text doc)) ->
        embeddings_create EMBED_MODEL [chunk] = Ok (vec chunk)) ->
    index_docs split_text embeddings_create EMBED_MODEL docs batch
    = Ok (batch ++ flat_map (records_of split_text vec) docs).
Proof.
  intros vec. induction docs as [|doc docs IH]; intros batch H; simpl.
  - now rewrite app_nil_r.
  - rewrite (index_chunks_ok vec).
    + simpl. rewrite IH; [now rewrite <- app_assoc|].
      intros d c Hd Hc. apply (H d c); [now right | exact Hc].
    + intros [i chunk] Hic. apply (H doc chunk); [now left|].
      eapply in_enumerate_from. exact Hic.
Qed.

Lemma index_chunks_succeeds :
  forall base chunks batch,
    (forall ic, In ic chunks ->
                exists v, embeddings_create EMBED_MODEL [snd ic] = Ok v) ->
    exists batch',
      index_chunks embeddings_create EMBED_MODEL base chunks batch = Ok batch'.
Proof.
  intros base. induction chunks as [|[i chunk] chunks IH];
    intros batch H; simpl.
  - eauto.
  - destruct (H (i, chunk) (or_introl eq_refl)) as [v Hv]. simpl in Hv.
    rewrite Hv. simpl. apply IH. intros ic Hic. apply H. now right.
Qed.

Lemma index_chunks_first_raise :
  forall base done i chunk rest e batch,
    (forall ic, In ic done ->
                exists v, embeddings_create EMBED_MODEL [snd ic] = Ok v) ->
    embeddings_create EMBED_MODEL [chunk] = Raise e ->
    index_chunks embeddings_create EMBED_MODEL base
      (done ++ (i, chunk) :: rest) batch
    = Raise e.
Proof.
  intros base. induction done as [|[j c] done IH];
    intros i chunk rest e batch Hdone Hbad; simpl.
  - now rewrite Hbad.
  - destruct (Hdone (j, c) (or_introl eq_refl)) as [v Hv]. simpl in Hv.
    rewrite Hv. simpl. apply IH; [|exact Hbad].
    intros ic Hic. apply Hdone. now right.
Qed.

Lemma index_docs_first_raise :
  forall before doc after done chunk rest e batch,
    split_text (doc_text doc) = done ++ chunk :: rest ->
    (forall d c, In d before -> In c (split_text (doc_text d)) ->
                 exists v, embeddings_create EMBED_MODEL [c] = Ok v) ->
    (forall c, In c done ->
               exists v, embeddings_create EMBED_MODEL [c] = Ok v) ->
    embeddings_create EMBED_MODEL [chunk] = Raise e ->
    index_docs split_text embeddings_create EMBED_MODEL
      (before ++ doc :: after) batch
    = Raise e.
Proof.
  induction before as [|d before IH];
    intros doc after done chunk rest e batch Hsplit Hbefore Hdone Hbad; simpl.
  - rewrite Hsplit, enumerate_from_app. cbn [enumerate_from].
    rewrite (index_chunks_first_raise _ _ _ _ _ e); [reflexivity| |exact Hbad].
    intros [j c] Hic. apply Hdone. eapply in_enumerate_from. exact Hic.
  - destruct (index_chunks_succeeds (fst (OsPath.splitext (doc_id d)))
                (enumerate_from 0 (split_text (doc_text d))) batch)
      as [mid Hmid].
    { intros [j c] Hic. apply (Hbefore d c); [now left|].
      eapply in_enumerate_from. exact Hic. }
    rewrite Hmid. simpl.
    apply (IH doc after done chunk rest e mid Hsplit); auto.
    intros d' c Hd Hc. apply (Hbefore d' c); [now right | exact Hc].
Qed.

End IndexFurther.

Section BatchKeys.

Import Ingest Notions.

Lemma chunk_id_same :
  forall d1 i1 d2 i2,
    chunk_id d1 i1 = chunk_id d2 i2 -> safe_base d1 = safe_base d2 /\ i1 = i2.
Proof.
  intros d1 i1 d2 i2 E. rewrite !chunk_id_cut in E.
  apply cut_at_last in E; try apply digits_no_underscore.
  destruct E as [Eb Ei]. apply app_inv_tail in Eb.
  apply str_of_int_inj in Ei. auto.
Qed.

Lemma chunk_id_safe :
  forall doc_id i, Re.fullmatch_plus safe_char (chunk_id doc_id i) = true.
Proof.
  intros doc_id i. unfold Re.fullmatch_plus. apply andb_true_iff. split.
  - rewrite chunk_id_shape. destruct (safe_base doc_id); reflexivity.
  - apply forallb_forall. intros c Hin. rewrite safe_char_alphabet.
    unfold chunk_id, safe_id in Hin. rewrite sub_as_map in Hin.
    apply in_map_iff in Hin as [c0 [<- _]].
    apply replace_outside_in_alphabet.
Qed.

Lemma chunk_ids_NoDup :
  forall (count : document -> nat) (docs : list document),
    NoDup (map (fun d => safe_base (doc_id d)) docs) ->
    NoDup (flat_map (fun doc => map (chunk_id (doc_id doc))
                                    (seq 0 (count doc))) docs).
Proof.
  intros count. induction docs as [|doc docs IH]; intros Hbases; simpl.
  - constructor.
  - inversion Hbases as [|b bs Hnotin Hrest]; subst.
    apply NoDup_app.
    + apply Finite.Injective_map_NoDup; [|apply seq_NoDup].
      intros i j E. now apply chunk_id_same in E.
    + now apply IH.
    + intros x Hx Hx'. apply in_map_iff in Hx as [i [<- _]].
      apply in_flat_map in Hx' as [doc' [Hdoc' Hx']].
      apply in_map_iff in Hx' as [j [E _]].
      apply chunk_id_same in E as [E _]. apply Hnotin.
      apply in_map_iff. exists doc'. auto.
Qed.

End BatchKeys.

Section IndexTheorems.

Import Ingest Notions.

(** When the embedding of every chunk succeeds, [chunk_and_index] makes
    one upload, of exactly one record per chunk: documents in the order
    given, chunks in splitter order, each with its storage id, its text
    and its embedding. *)
Theorem chunk_and_index_uploads_all :
  forall (split_text : str -> list str)
         (embeddings_create : str -> list str -> result (list float))
         (EMBED_MODEL : str)
         (upload_documents : list index_record -> result (list (str * bool)))
         (vec : str -> list float) (docs : list document),
    (forall doc chunk,
        In doc docs -> In chunk (split_text (doc_text doc)) ->
        embeddings_create EMBED_MODEL [chunk] = Ok (vec chunk)) ->
    chunk_and_index split_text embeddings_create EMBED_MODEL
      upload_documents docs
    = upload_documents (flat_map (records_of split_text vec) docs).
Proof.
  intros split_text embeddings_create EMBED_MODEL upload_documents vec docs H.
  unfold chunk_and_index.
  rewrite (index_docs_ok split_text embeddings_create EMBED_MODEL vec docs []
             H).
  reflexivity.
Qed.

Lemma chunk_and_index_uploads_all_witness :
  chunk_and_index SampleIngest.split_text SampleIngest.embed (lit "embed")
    SampleIngest.upload SampleIngest.docs
  = Ok [(lit "oil-change_chunk_0", true); (lit "oil-change_chunk_1", true);
        (lit "Brakes_chunk_0", true); (lit "Brakes_chunk_1", true)].
Proof.
  apply (chunk_and_index_uploads_all SampleIngest.split_text
           SampleIngest.embed (lit "embed") SampleIngest.upload
           SampleIngest.vec SampleIngest.docs).
  intros doc chunk [<-|[<-|[]]] [<-|[<-|[]]]; reflexivity.
Defined.

(** The first chunk whose embedding fails ends the indexing with that
    exception: the result does not depend on the upload operation, so
    the records built before the failure are not uploaded. *)
Theorem chunk_and_index_embedding_failure :
  forall (split_text : str -> list str)
         (embeddings_create : str -> list str -> result (list float))
         (EMBED_MODEL : str)
         (upload_documents : list index_record -> result (list (str * bool)))
         (before : list document) (doc : document) (after : list document)
         (done : list str) (chunk : str) (rest : list str) (e : exn),
    split_text (doc_text doc) = done ++ chunk :: rest ->
    (forall d c, In d before -> In c (split_text (doc_text d)) ->
                 exists v, embeddings_create EMBED_MODEL [c] = Ok v) ->
    (forall c, In c done ->
               exists v, embeddings_create EMBED_MODEL [c] = Ok v) ->
    embeddings_create EMBED_MODEL [chunk] = Raise e ->
    chunk_and_index split_text embeddings_create EMBED_MODEL
      upload_documents (before ++ doc :: after)
    = Raise e.
Proof.
  intros split_text embeddings_create EMBED_MODEL upload_documents
         before doc after done chunk rest e Hsplit Hbefore Hdone Hbad.
  unfold chunk_and_index.
  rewrite (index_docs_first_raise split_text embeddings_create EMBED_MODEL
             before doc after done chunk rest e [] Hsplit Hbefore Hdone Hbad).
  reflexivity.
Qed.

Lemma chunk_and_index_embedding_failure_witness :
  chunk_and_index SampleIngest.split_text SampleIngest.embed (lit "embed")
    SampleIngest.upload
    ([ {| doc_id := lit "oil-change.pdf"; doc_text := SampleIngest.manual |} ]
     ++ {| doc_id := lit "Brakes.PDF"; doc_text := lit "Bleed brakes." |}
     :: [])
  = Raise APIError.
Proof.
  apply (chunk_and_index_embedding_failure SampleIngest.split_text
           SampleIngest.embed (lit "embed") SampleIngest.upload
           [ {| doc_id := lit "oil-change.pdf";
                doc_text := SampleIngest.manual |} ]
           {| doc_id := lit "Brakes.PDF"; doc_text := lit "Bleed brakes." |}
           [] [lit "Bleed brakes."] [] [] APIError).
  - reflexivity.
  - intros d c [<-|[]] [<-|[<-|[]]]; eexists; reflexivity.
  - intros c [<-|[]]. eexists. reflexivity.
  - reflexivity.
Defined.

(** Whenever the indexing loop completes, the keys of the batch are
    pairwise distinct provided the documents have pairwise distinct
    base names after sanitization: no record of the batch overwrites
    another. *)
Theorem batch_ids_distinct :
  forall (split_text : str -> list str)
         (embeddings_create : str -> list str -> result (list float))
         (EMBED_MODEL : str) (docs : list document)
         (batch : list index_record),
    NoDup (map (fun d => safe_base (doc_id d)) docs) ->
    index_docs split_text embeddings_create EMBED_MODEL docs [] = Ok batch ->
    NoDup (map id batch).
Proof.
  intros split_text embeddings_create EMBED_MODEL docs batch Hbases Hrun.
  apply index_docs_ids in Hrun. rewrite Hrun. cbn [map app].
  apply (chunk_ids_NoDup
           (fun doc => List.length (split_text (doc_text doc)))).
  exact Hbases.
Qed.

Lemma batch_ids_distinct_witness :
  NoDup (map id (flat_map (records_of SampleIngest.split_text SampleIngest.vec)
                          SampleIngest.docs)).
Proof.
  apply (batch_ids_distinct SampleIngest.split_text SampleIngest.embed
           (lit "embed") SampleIngest.docs).
  - apply NoDup_cons; [intros [H|[]]; vm_compute in H; discriminate|].
    apply NoDup_cons; [intros []|]. apply NoDup_nil.
  - reflexivity.
Defined.

(** Whenever the indexing loop completes, every key of the batch matches
    [^[A-Za-z0-9_-]+$]. *)
Theorem batch_ids_safe :
  forall (split_text : str -> list str)
         (embeddings_create : str -> list str -> result (list float))
         (EMBED_MODEL : str) (docs : list document)
         (batch : list index_record),
    index_docs split_text embeddings_create EMBED_MODEL docs [] = Ok batch ->
    Forall (fun r => Re.fullmatch_plus safe_char (id r) = true) batch.
Proof.
  intros split_text embeddings_create EMBED_MODEL docs batch Hrun.
  apply index_docs_ids in Hrun. cbn [map app] in Hrun.
  apply Forall_forall. intros r Hr.
  assert (Hin : In (id r) (map id batch)) by (apply in_map; exact Hr).
  rewrite Hrun in Hin. apply in_flat_map in Hin as [doc [_ Hin]].
  apply in_map_iff in Hin as [i [<- _]]. apply chunk_id_safe.
Qed.

Lemma batch_ids_safe_witness :
  Forall (fun r => Re.fullmatch_plus safe_char (id r) = true)
    (flat_map (records_of SampleIngest.split_text SampleIngest.vec)
              SampleIngest.docs).
Proof.
  apply (batch_ids_safe SampleIngest.split_text SampleIngest.embed
           (lit "embed") SampleIngest.docs).
  reflexivity.
Defined.

End IndexTheorems.

(* ================================================================== *)
(** * Further properties of [os.path.splitext] *)

Section SplitextFurther.

Import Ingest.

Lemma split_last_notin :
  forall (c : char) (s : str), ~ In c s -> split_last c s = None.
Proof.
  intros c. induction s as [|x s IH]; intros H; simpl; [reflexivity|].
  rewrite IH by (intros Hin; apply H; now right).
  destruct (N.eqb x c) eqn:E; [|reflexivity].
  apply N.eqb_eq in E. exfalso. apply H. now left.
Qed.

Lemma split_last_found :
  forall (c : char) (a b : str),
    ~ In c b -> split_last c (a ++ c :: b) = Some (a, b).
Proof.
  intros c a b H. rewrite split_last_app. cbn [split_last].
  rewrite (split_last_notin c b H), N.eqb_refl. now rewrite app_nil_r.
Qed.

(** The two parts [splitext] returns make up the path again. *)
Theorem splitext_concat :
  forall p : str, fst (OsPath.splitext p) ++ snd (OsPath.splitext p) = p.
Proof.
  intros p. unfold OsPath.splitext, OsPath._splitext.
  destruct (_ && _); cbn [fst snd].
  - unfold slice. rewrite Z.sub_0_r. cbn [Z.to_nat skipn].
    apply firstn_skipn.
  - apply app_nil_r.
Qed.

Lemma splitext_snd :
  forall p : str,
    snd (OsPath.splitext p)
    = skipn (List.length (fst (OsPath.splitext p))) p.
Proof.
  intros p. unfold OsPath.splitext, OsPath._splitext.
  destruct (_ && _) eqn:E; cbn [fst snd].
  - unfold slice. rewrite Z.sub_0_r. cbn [Z.to_nat skipn].
    apply andb_true_iff in E as [E _]. apply Z.ltb_lt in E.
    assert (Hlen : (Z.to_nat (rfind p (ch ".")) <= List.length p)%nat).
    { rewrite rfind_split_last.
      destruct (split_last (ch ".") p) as [[a b]|] eqn:Es.
      - apply split_last_Some in Es.
        apply (f_equal (@List.length char)) in Es.
        rewrite length_app in Es. cbn [List.length] in Es.
        rewrite Nat2Z.id. lia.
      - simpl. lia. }
    now rewrite firstn_length_le.
  - now rewrite skipn_all.
Qed.

(** A file name with an extension loses exactly that extension: when
    the directory part is empty or ends with a slash, the stem holds no
    slash and is not made of dots only, and the extension holds neither
    dot nor slash, [splitext] cuts right before the last dot. *)
Theorem splitext_drops_extension :
  forall dir stem ext : str,
    (dir = [] \/ exists d, dir = d ++ [ch "/"]) ->
    ~ In (ch "/") stem ->
    ~ In (ch "/") ext ->
    ~ In (ch ".") ext ->
    forallb (N.eqb (ch ".")) stem = false ->
    OsPath.splitext (dir ++ stem ++ ch "." :: ext)
    = (dir ++ stem, ch "." :: ext).
Proof.
  intros dir stem ext Hdir Hstem Hext Hdot Hnondot.
  set (p := dir ++ stem ++ ch "." :: ext).
  assert (Hslash : ~ In (ch "/") (stem ++ ch "." :: ext)).
  { intros Hin. apply in_app_iff in Hin. destruct Hin as [Hin|Hin];
      [now apply Hstem|].
    destruct Hin as [Hin|Hin]; [vm_compute in Hin; discriminate|].
    now apply Hext. }
  assert (Hfst : fst (OsPath.splitext p) = dir ++ stem).
  { rewrite (splitext_with_dot p dir stem ext eq_refl).
    - now rewrite Hnondot.
    - rewrite rfind_split_last. destruct Hdir as [-> | [d ->]].
      + rewrite split_last_notin; [reflexivity | exact Hslash].
      + unfold p. rewrite <- app_assoc.
        change ([ch "/"] ++ stem ++ ch "." :: ext)
          with (ch "/" :: stem ++ ch "." :: ext).
        rewrite split_last_found by exact Hslash.
        rewrite length_app. cbn [List.length]. lia.
    - rewrite rfind_split_last. unfold p. rewrite app_assoc.
      rewrite split_last_found by exact Hdot.
      now rewrite length_app. }
  rewrite (surjective_pairing (OsPath.splitext p)).
  rewrite splitext_snd, Hfst. f_equal.
  unfold p. rewrite app_assoc, skipn_app, skipn_all, Nat.sub_diag.
  reflexivity.
Qed.

Lemma splitext_drops_extension_witness :
  OsPath.splitext (lit "manuals/" ++ lit "Classic 350" ++ ch "." :: lit "PDF")
  = (lit "manuals/Classic 350", lit ".PDF").
Proof.
  apply (splitext_drops_extension (lit "manuals/") (lit "Classic 350")
           (lit "PDF")).
  - right. exists (lit "manuals"). reflexivity.
  - vm_compute. intuition discriminate.
  - vm_compute. intuition discriminate.
  - vm_compute. intuition discriminate.
  - reflexivity.
Defined.

End SplitextFurther.

(* ================================================================== *)
(** * Further properties of the vector search *)

Section RetrievalErrors.

(** A response with a 4xx or 5xx status makes [vector_search] of app.py
    raise [HTTPError] right after the request: the body is not decoded
    and no hit is returned. *)
Theorem vector_search_http_error :
  forall (e : env) (query : str) (k_arg : option Z) (emb : list float)
         (resp : response) (tr : list event),
    embeddings_create e (EMBED_MODEL e) [query] = Ok emb ->
    requests_post e (search_url e)
      (App.search_body emb (arg_or k_arg App.vector_search_k_default))
      (search_headers e) = Ok resp ->
    (400 <= status_code resp < 600)%Z ->
    App.vector_search e query k_arg tr
    = (Raise (HTTPError (status_code resp)),
       tr ++ [EmbeddingsCreate (EMBED_MODEL e) [query];
              RequestsPost (search_url e)
                (App.search_body emb
                   (arg_or k_arg App.vector_search_k_default))
                (search_headers e)]).
Proof.
  intros e query k_arg emb resp tr Hemb Hpost Hstatus.
  unfold App.vector_search, mbind, call, lift.
  rewrite Hemb, Hpost. unfold raise_for_status.
  replace (400 <=? status_code resp)%Z with true
    by (symmetry; apply Z.leb_le; lia).
  replace (status_code resp <? 600)%Z with true
    by (symmetry; apply Z.ltb_lt; lia).
  cbn [andb]. now rewrite <- app_assoc.
Qed.

Lemma vector_search_http_error_witness :
  fst (App.vector_search (SampleFaults.with_status 503 Sample.hits)
         (lit "How do I change the oil?") (Some 4%Z) [])
  = Raise (HTTPError 503).
Proof.
  apply (f_equal fst
           (vector_search_http_error
              (SampleFaults.with_status 503 Sample.hits)
              (lit "How do I change the oil?") (Some 4%Z)
              [0.5%float; 0.25%float]
              {| status_code := 503; json_body := Ok Sample.hits |} []
              eq_refl eq_refl ltac:(simpl; lia))).
Defined.

(** When the embedding call raises, both scripts stop there: the
    exception comes out and no search request is sent. *)
Theorem embedding_failure_sends_no_request :
  forall (e : env) (query : str) (k_arg : option Z) (x : exn)
         (tr : list event),
    embeddings_create e (EMBED_MODEL e) [query] = Raise x ->
    App.vector_search e query k_arg tr
    = (Raise x, tr ++ [EmbeddingsCreate (EMBED_MODEL e) [query]])
    /\ SearchRest.vector_search e query k_arg tr
       = (Raise x, tr ++ [EmbeddingsCreate (EMBED_MODEL e) [query]]).
Proof.
  intros e query k_arg x tr Hemb. split.
  - unfold App.vector_search, mbind, call. now rewrite Hemb.
  - unfold SearchRest.vector_search, mbind, call. now rewrite Hemb.
Qed.

Lemma embedding_failure_sends_no_request_witness :
  App.vector_search SampleFaults.embedding_down
    (lit "How do I change the oil?") None []
  = (Raise APIError,
     [EmbeddingsCreate (lit "embed") [lit "How do I change the oil?"]]).
Proof.
  apply (embedding_failure_sends_no_request SampleFaults.embedding_down
           (lit "How do I change the oil?") None APIError []).
  reflexivity.
Defined.

Lemma hit_pair_ok_of_hit :
  forall h, (exists p, Design.is_hit_of h p) -> exists p, App.hit_pair h = Ok p.
Proof. intros h [p Hp]. exists p. now apply hit_pair_spec. Qed.

(** A hit without [id], or with [id] but without [content], makes
    [vector_search] of app.py raise [KeyError] for that key, even when
    the hits before it are well formed: no partial list is returned. *)
Theorem vector_search_malformed_hit :
  forall (e : env) (query : str) (k : Z) (emb : list float)
         (resp : response) (fields : list (str * json))
         (good : list json) (fs : list (str * json)) (rest : list json)
         (key : str) (tr : list event),
    embeddings_create e (EMBED_MODEL e) [query] = Ok emb ->
    requests_post e (search_url e) (App.search_body emb k)
      (search_headers e) = Ok resp ->
    (status_code resp < 400)%Z ->
    json_body resp = Ok (JObj fields) ->
    dict_lookup (lit "value") fields = Some (JArr (good ++ JObj fs :: rest)) ->
    Forall (fun h => exists p, Design.is_hit_of h p) good ->
    (key = lit "id" /\ dict_lookup (lit "id") fs = None
     \/ key = lit "content"
        /\ dict_lookup (lit "id") fs <> None
        /\ dict_lookup (lit "content") fs = None) ->
    fst (App.vector_search e query (Some k) tr) = Raise (KeyError key).
Proof.
  intros e query k emb resp fields good fs rest key tr
         Hemb Hpost Hstatus Hjson Hvalue Hgood Hkey.
  rewrite (app_vector_search_run e query (Some k) emb resp fields tr
             Hemb Hpost Hstatus Hjson).
  rewrite Hvalue. cbn [fst Py.len Py.iter bind].
  apply mapM_first_raise.
  - intros h Hh. apply hit_pair_ok_of_hit.
    rewrite Forall_forall in Hgood. now apply Hgood.
  - unfold App.hit_pair, Py.getitem.
    destruct Hkey as [[-> Hid] | [-> [Hid Hcontent]]].
    + now rewrite Hid.
    + destruct (dict_lookup (lit "id") fs); [|contradiction].
      cbn [bind]. now rewrite Hcontent.
Qed.

Lemma vector_search_malformed_hit_witness :
  fst (App.vector_search
         (SampleFaults.with_status 200
            (JObj SampleFaults.second_hit_without_content))
         (lit "How do I change the oil?") (Some 4%Z) [])
  = Raise (KeyError (lit "content")).
Proof.
  apply (vector_search_malformed_hit
           (SampleFaults.with_status 200
              (JObj SampleFaults.second_hit_without_content))
           (lit "How do I change the oil?") 4 [0.5%float; 0.25%float]
           {| status_code := 200;
              json_body := Ok (JObj SampleFaults.second_hit_without_content) |}
           SampleFaults.second_hit_without_content
           [JObj [(lit "id", JStr (lit "oil-change_chunk_0"));
                  (lit "content", JStr (lit "Drain the oil."))]]
           [(lit "id", JStr (lit "oil-change_chunk_1"))] []
           (lit "content") []).
  - reflexivity.
  - reflexivity.
  - simpl. lia.
  - reflexivity.
  - reflexivity.
  - constructor; [|constructor].
    exists (JStr (lit "oil-change_chunk_0"), JStr (lit "Drain the oil.")).
    eexists. repeat split; reflexivity.
  - right. split; [reflexivity|]. split; [discriminate | reflexivity].
Defined.

End RetrievalErrors.

(* ================================================================== *)
(** * Further properties of the answer synthesis *)

Section SynthesisFurther.

Import Notions.

Lemma lstrip_head :
  forall s, match lstrip s with [] => True | c :: _ => isspace c = false end.
Proof.
  induction s as [|c s IH]; [exact I|].
  cbn [lstrip]. destruct (isspace c) eqn:E; [exact IH | exact E].
Qed.

Lemma lstrip_suffix :
  forall s,
    exists ws, s = ws ++ lstrip s /\ Forall (fun c => isspace c = true) ws.
Proof.
  induction s as [|c s IH].
  - exists []. split; [reflexivity | constructor].
  - cbn [lstrip]. destruct (isspace c) eqn:E.
    + destruct IH as [ws [Hs Hws]]. exists (c :: ws). split.
      * simpl. f_equal. exact Hs.
      * now constructor.
    + exists []. split; [reflexivity | constructor].
Qed.

(** [strip] removes white space from both ends and nothing else. *)
Lemma strip_spec :
  forall s,
    no_outer_space (strip s)
    /\ exists l r,
         s = l ++ strip s ++ r
         /\ Forall (fun c => isspace c = true) l
         /\ Forall (fun c => isspace c = true) r.
Proof.
  intros s. unfold strip.
  destruct (lstrip_suffix s) as [l [Hs Hl]].
  destruct (lstrip_suffix (List.rev (lstrip s))) as [ws [Ht Hws]].
  assert (Hcut : lstrip s
                 = List.rev (lstrip (List.rev (lstrip s))) ++ List.rev ws).
  { rewrite <- rev_app_distr, <- Ht. now rewrite rev_involutive. }
  split.
  - split.
    + pose proof (lstrip_head s) as Hhead. rewrite Hcut in Hhead.
      destruct (List.rev (lstrip (List.rev (lstrip s)))); [exact I|].
      exact Hhead.
    + rewrite rev_involutive. apply lstrip_head.
  - exists l, (List.rev ws). split; [|split].
    + rewrite <- Hcut. exact Hs.
    + exact Hl.
    + now apply Forall_rev.
Qed.

(** Every answer the synthesizer returns is free of white space at both
    ends; when there are hits, it is the reply of the completion
    endpoint with only such white space removed. *)
Theorem answer_is_trimmed_reply :
  forall (e : env) (question : str) (chunks : list (json * json))
         (tr : list event) (a : str),
    fst (App.answer_with_gpt4o e question chunks tr) = Ok a ->
    no_outer_space a
    /\ (chunks <> [] ->
        exists messages reply l r,
          chat_completions_create e (CHAT_MODEL e) messages
            App.temperature App.max_tokens = Ok (Some reply)
          /\ reply = l ++ a ++ r
          /\ Forall (fun c => isspace c = true) l
          /\ Forall (fun c => isspace c = true) r).
Proof.
  intros e question chunks tr a H.
  destruct chunks as [|c chunks].
  - simpl in H. injection H as <-. split; [|congruence].
    split; reflexivity.
  - unfold App.answer_with_gpt4o, mbind, lift, call in H.
    destruct (mapM _ (c :: chunks)) as [texts|x]; [|discriminate].
    match type of H with
    | context [chat_completions_create e ?m ?msgs ?t ?n] =>
        destruct (chat_completions_create e m msgs t n)
          as [[reply|]|x] eqn:Echat; try discriminate;
        pose (messages := msgs)
    end.
    simpl in H. injection H as <-.
    destruct (strip_spec reply) as [Hclean [l [r [Hreply [Hl Hr]]]]].
    split; [exact Hclean|]. intros _.
    exists messages, reply, l, r. auto.
Qed.

Lemma answer_is_trimmed_reply_witness :
  no_outer_space (lit "1. Drain the oil. 2. Refill.").
Proof.
  apply (answer_is_trimmed_reply (Sample.deployment Sample.hits)
           (lit "How do I change the oil?") Sample.pairs []
           (lit "1. Drain the oil. 2. Refill.")).
  reflexivity.
Defined.

Lemma sliced_text_raises :
  forall chunks : list (json * json),
    existsb not_a_string chunks = true ->
    exists x,
      mapM (fun c => Py.sliced_text (snd c)) chunks = Raise x
      /\ (x = TypeError \/ x = AttributeError).
Proof.
  induction chunks as [|[cid text] chunks IH]; intros H; [discriminate|].
  cbn [existsb] in H. cbn [mapM].
  destruct (not_a_string (cid, text)) eqn:E.
  - unfold not_a_string in E. cbn [snd] in *.
    destruct text; try discriminate; cbn [Py.sliced_text bind]; eauto.
  - cbn [orb] in H. destruct (IH H) as [x [Hx Hkind]].
    unfold not_a_string in E. cbn [snd] in *.
    destruct text; try discriminate. cbn [Py.sliced_text bind].
    rewrite Hx. cbn [bind]. eauto.
Qed.

(** A hit whose content is not a string makes the synthesizer raise
    while it logs the chunks: no call is made, so the completion
    endpoint never sees a prompt built from such a hit. *)
Theorem answer_rejects_non_string_content :
  forall (e : env) (question : str) (chunks : list (json * json))
         (tr : list event),
    existsb not_a_string chunks = true ->
    exists x,
      App.answer_with_gpt4o e question chunks tr = (Raise x, tr)
      /\ (x = TypeError \/ x = AttributeError).
Proof.
  intros e question chunks tr H.
  destruct (sliced_text_raises chunks H) as [x [Hx Hkind]].
  exists x. split; [|exact Hkind].
  destruct chunks as [|c chunks]; [discriminate|].
  unfold App.answer_with_gpt4o, mbind, lift. now rewrite Hx.
Qed.

Lemma answer_rejects_non_string_content_witness :
  exists x,
    App.answer_with_gpt4o (Sample.deployment Sample.hits)
      (lit "How do I change the oil?") SampleFaults.numeric_content []
    = (Raise x, [])
    /\ (x = TypeError \/ x = AttributeError).
Proof.
  apply (answer_rejects_non_string_content (Sample.deployment Sample.hits)
           (lit "How do I change the oil?") SampleFaults.numeric_content []).
  reflexivity.
Defined.

Lemma join_in :
  forall (sep : str) (parts : list str) (x : str),
    In x parts -> exists pre post, join sep parts = pre ++ x ++ post.
Proof.
  intros sep. induction parts as [|a parts IH]; intros x Hin; [easy|].
  destruct parts as [|b parts].
  - destruct Hin as [<-|[]]. exists [], []. simpl. now rewrite app_nil_r.
  - change (join sep (a :: b :: parts))
      with (a ++ sep ++ join sep (b :: parts)).
    destruct Hin as [<-|Hin].
    + exists [], (sep ++ join sep (b :: parts)). reflexivity.
    + destruct (IH x Hin) as [pre [post Hjoin]].
      exists (a ++ sep ++ pre), post. rewrite Hjoin.
      now rewrite <- !app_assoc.
Qed.

Lemma nth_error_enumerate_from :
  forall (A : Type) (l : list A) (n k : nat) (a : A),
    nth_error l k = Some a -> In ((n + k)%nat, a) (enumerate_from n l).
Proof.
  intros A. induction l as [|x l IH]; intros n k a H.
  - destruct k; discriminate.
  - destruct k as [|k]; simpl in H.
    + injection H as ->. left. now rewrite Nat.add_0_r.
    + right. rewrite Nat.add_succ_r. apply (IH (S n) k a H).
Qed.

(** The citation labels are the ranks: the content of the hit at rank
    [k] stands in the context block right after the label [[k]]. *)
Theorem context_labels_are_ranks :
  forall (texts : list str) (k : nat) (t : str),
    nth_error texts k = Some t ->
    exists pre post,
      App.context_block texts
      = pre ++ (lit "[" ++ str_of_int k ++ lit "] " ++ t) ++ post.
Proof.
  intros texts k t H. unfold App.context_block. apply join_in.
  apply in_map_iff. exists (k, t). split; [reflexivity|].
  apply (nth_error_enumerate_from _ texts 0 k t H).
Qed.

Lemma context_labels_are_ranks_witness :
  exists pre post,
    App.context_block [lit "Drain the oil."; lit "Refill."]
    = pre ++ (lit "[" ++ str_of_int 1 ++ lit "] " ++ lit "Refill.") ++ post.
Proof.
  apply (context_labels_are_ranks [lit "Drain the oil."; lit "Refill."] 1
           (lit "Refill.")).
  reflexivity.
Defined.

(** The synthesizer makes no call or one call, to the completion
    endpoint, with the system message first. *)
Lemma answer_trace :
  forall (e : env) (question : str) (chunks : list (json * json))
         (tr : list event),
    exists r out,
      App.answer_with_gpt4o e question chunks tr = (r, tr ++ out)
      /\ (out = []
          \/ exists user,
               out = [ChatCompletionsCreate (CHAT_MODEL e)
                        [App.system_message; user]
                        App.temperature App.max_tokens]).
Proof.
  intros e question chunks tr. destruct chunks as [|c chunks].
  - exists (Ok App.no_documentation_message), [].
    rewrite app_nil_r. auto.
  - unfold App.answer_with_gpt4o, mbind, lift, call.
    destruct (mapM _ (c :: chunks)) as [texts|x].
    + match goal with
      | |- context [chat_completions_create e ?m ?msgs ?t ?n] =>
          destruct (chat_completions_create e m msgs t n) as [[reply|]|x]
      end; eexists; eexists; (split; [reflexivity|]); right; eauto.
    + exists (Raise x), []. rewrite app_nil_r. auto.
Qed.

End SynthesisFurther.

(* ================================================================== *)
(** * Further properties of a run of the app *)

Section AppRuns.

Import Notions.

Lemma answer_with_string_hits :
  forall (e : env) (question : str) (hits : list (json * str))
         (tr : list event),
    hits <> [] ->
    let messages :=
      [App.system_message;
       App.user_message question (App.context_block (map snd hits))] in
    App.answer_with_gpt4o e question
      (map (fun h => (fst h, JStr (snd h))) hits) tr
    = (match chat_completions_create e (CHAT_MODEL e) messages
               App.temperature App.max_tokens with
       | Ok (Some reply) => Ok (strip reply)
       | Ok None => Raise AttributeError
       | Raise x => Raise x
       end,
       tr ++ [ChatCompletionsCreate (CHAT_MODEL e) messages
                App.temperature App.max_tokens]).
Proof.
  intros e question hits tr Hne messages.
  destruct hits as [|h hits]; [contradiction|].
  unfold App.answer_with_gpt4o.
  change (map (fun h0 => (fst h0, JStr (snd h0))) (h :: hits))
    with ((fst h, JStr (snd h))
          :: map (fun h0 => (fst h0, JStr (snd h0))) hits).
  cbv beta iota.
  change ((fst h, JStr (snd h))
          :: map (fun h0 => (fst h0, JStr (snd h0))) hits)
    with (map (fun h0 => (fst h0, JStr (snd h0))) (h :: hits)).
  unfold mbind at 1. unfold lift at 1.
  rewrite sliced_texts_of_strings.
  unfold mbind, call. fold messages.
  destruct (chat_completions_create e (CHAT_MODEL e) messages
              App.temperature App.max_tokens) as [[reply|]|x]; reflexivity.
Qed.

(** A run answers from the hits: with a non-empty question, a
    successful search returning well-formed hits and a reply from the
    completion endpoint, the run makes the three calls in order and
    appends one turn, the question with the stripped reply, which is
    rendered first. *)
Theorem app_answers_from_hits :
  forall (e : env) (handle : option Z) (prompt : str)
         (history : option (list (str * str))) (emb : list float)
         (resp : response) (fields : list (str * json))
         (elems : list json) (hits : list (json * str)) (reply : str)
         (tr : list event),
    prompt <> [] ->
    hits <> [] ->
    embeddings_create e (EMBED_MODEL e) [prompt] = Ok emb ->
    requests_post e (search_url e)
      (App.search_body emb (App.slider 1 8 4 handle)) (search_headers e)
    = Ok resp ->
    (status_code resp < 400)%Z ->
    json_body resp = Ok (JObj fields) ->
    dict_lookup (lit "value") fields = Some (JArr elems) ->
    Forall2 Design.is_hit_of elems
      (map (fun h => (fst h, JStr (snd h))) hits) ->
    chat_completions_create e (CHAT_MODEL e)
      [App.system_message;
       App.user_message prompt (App.context_block (map snd hits))]
      App.temperature App.max_tokens
    = Ok (Some reply) ->
    let old := match history with Some h => h | None => [] end in
    App.app e handle prompt true history tr
    = (Ok (old ++ [(prompt, strip reply)]),
       tr ++ [EmbeddingsCreate (EMBED_MODEL e) [prompt];
              RequestsPost (search_url e)
                (App.search_body emb (App.slider 1 8 4 handle))
                (search_headers e);
              ChatCompletionsCreate (CHAT_MODEL e)
                [App.system_message;
                 App.user_message prompt
                   (App.context_block (map snd hits))]
                App.temperature App.max_tokens])
    /\ App.conversation (old ++ [(prompt, strip reply)])
       = (prompt, strip reply) :: App.conversation old.
Proof.
  intros e handle prompt history emb resp fields elems hits reply tr
         Hprompt Hhits Hemb Hpost Hstatus Hjson Hvalue Hwf Hchat old.
  split.
  - unfold App.app. destruct prompt as [|c prompt]; [contradiction|].
    cbn [truthy]. unfold mbind at 1.
    rewrite (app_vector_search_run e (c :: prompt)
               (Some (App.slider 1 8 4 handle)) emb resp fields tr
               Hemb Hpost Hstatus Hjson).
    rewrite Hvalue. cbn [Py.len Py.iter bind].
    apply mapM_hit_pair in Hwf. rewrite Hwf.
    unfold mbind at 1.
    rewrite (answer_with_string_hits e (c :: prompt) hits _ Hhits).
    cbv zeta. rewrite Hchat. unfold ret. fold old.
    now rewrite <- app_assoc.
  - unfold App.conversation. now rewrite rev_app_distr.
Qed.

Lemma app_answers_from_hits_witness :
  App.app (Sample.deployment Sample.hits) (Some 6%Z)
    (lit "How do I change the oil?")
    true (Some [(lit "Hello?", lit "Hi.")]) []
  = (Ok [(lit "Hello?", lit "Hi.");
         (lit "How do I change the oil?",
          lit "1. Drain the oil. 2. Refill.")],
     [EmbeddingsCreate (lit "embed") [lit "How do I change the oil?"];
      RequestsPost (search_url (Sample.deployment Sample.hits))
        (App.search_body [0.5%float; 0.25%float] 6)
        (search_headers (Sample.deployment Sample.hits));
      ChatCompletionsCreate (lit "gpt-4o")
        [App.system_message;
         App.user_message (lit "How do I change the oil?")
           (App.context_block [lit "Drain the oil."; lit "Refill."])]
        App.temperature App.max_tokens]).
Proof.
  apply (app_answers_from_hits (Sample.deployment Sample.hits) (Some 6%Z)
           (lit "How do I change the oil?")
           (Some [(lit "Hello?", lit "Hi.")]) [0.5%float; 0.25%float]
           {| status_code := 200; json_body := Ok Sample.hits |}
           [(lit "@odata.context", JStr (lit "https://search/$metadata"));
            (lit "value",
             JArr [JObj [(lit "@search.score", JFloat 0.5%float);
                         (lit "id", JStr (lit "oil-change_chunk_0"));
                         (lit "content", JStr (lit "Drain the oil."))];
                   JObj [(lit "id", JStr (lit "oil-change_chunk_1"));
                         (lit "content", JStr (lit "Refill."))]])]
           [JObj [(lit "@search.score", JFloat 0.5%float);
                  (lit "id", JStr (lit "oil-change_chunk_0"));
                  (lit "content", JStr (lit "Drain the oil."))];
            JObj [(lit "id", JStr (lit "oil-change_chunk_1"));
                  (lit "content", JStr (lit "Refill."))]]
           [(JStr (lit "oil-change_chunk_0"), lit "Drain the oil.");
            (JStr (lit "oil-change_chunk_1"), lit "Refill.")]
           (lit " 1. Drain the oil. 2. Refill. ") []).
  - discriminate.
  - discriminate.
  - reflexivity.
  - reflexivity.
  - simpl. lia.
  - reflexivity.
  - reflexivity.
  - repeat (constructor; [eexists; repeat split; reflexivity|]).
    constructor.
  - reflexivity.
Defined.

(** A run with no hits answers without the model: with a non-empty
    question and a successful search whose response has no [value] or
    an empty one, the run appends the fixed message as the answer and
    makes no completion call. *)
Theorem app_zero_hits :
  forall (e : env) (handle : option Z) (prompt : str)
         (history : option (list (str * str))) (emb : list float)
         (resp : response) (fields : list (str * json)) (tr : list event),
    prompt <> [] ->
    embeddings_create e (EMBED_MODEL e) [prompt] = Ok emb ->
    requests_post e (search_url e)
      (App.search_body emb (App.slider 1 8 4 handle)) (search_headers e)
    = Ok resp ->
    (status_code resp < 400)%Z ->
    json_body resp = Ok (JObj fields) ->
    (dict_lookup (lit "value") fields = None
     \/ dict_lookup (lit "value") fields = Some (JArr [])) ->
    App.app e handle prompt true history tr
    = (Ok ((match history with Some h => h | None => [] end)
           ++ [(prompt, App.no_documentation_message)]),
       tr ++ [EmbeddingsCreate (EMBED_MODEL e) [prompt];
              RequestsPost (search_url e)
                (App.search_body emb (App.slider 1 8 4 handle))
                (search_headers e)]).
Proof.
  intros e handle prompt history emb resp fields tr
         Hprompt Hemb Hpost Hstatus Hjson Hvalue.
  unfold App.app. destruct prompt as [|c prompt]; [contradiction|].
  cbn [truthy]. unfold mbind at 1.
  rewrite (app_vector_search_run e (c :: prompt)
             (Some (App.slider 1 8 4 handle)) emb resp fields tr
             Hemb Hpost Hstatus Hjson).
  destruct Hvalue as [-> | ->]; reflexivity.
Qed.

Lemma app_zero_hits_witness :
  App.app (Sample.deployment Sample.no_value) None
    (lit "How do I change the oil?") true None []
  = (Ok [(lit "How do I change the oil?", App.no_documentation_message)],
     [EmbeddingsCreate (lit "embed") [lit "How do I change the oil?"];
      RequestsPost (search_url (Sample.deployment Sample.no_value))
        (App.search_body [0.5%float; 0.25%float] 4)
        (search_headers (Sample.deployment Sample.no_value))]).
Proof.
  apply (app_zero_hits (Sample.deployment Sample.no_value) None
           (lit "How do I change the oil?") None [0.5%float; 0.25%float]
           {| status_code := 200; json_body := Ok Sample.no_value |}
           [(lit "@odata.context", JStr (lit "https://search/$metadata"))]
           []).
  - discriminate.
  - reflexivity.
  - reflexivity.
  - simpl. lia.
  - reflexivity.
  - left. reflexivity.
Defined.

(** The history only grows at its end: whenever a run completes, the
    history it leaves is the one it found followed by at most one turn,
    and a turn is added only when Ask was pressed on a non-empty
    question, which is the question of that turn. *)
Theorem app_history_append_only :
  forall (e : env) (handle : option Z) (prompt : str) (ask : bool)
         (history : option (list (str * str))) (tr : list event)
         (after : list (str * str)),
    fst (App.app e handle prompt ask history tr) = Ok after ->
    exists added,
      after = (match history with Some h => h | None => [] end) ++ added
      /\ (added = []
          \/ ask = true /\ prompt <> []
             /\ exists answer, added = [(prompt, answer)]).
Proof.
  intros e handle prompt ask history tr after H.
  unfold App.app in H.
  destruct ask; [|injection H as <-; exists []; now rewrite app_nil_r; auto].
  destruct prompt as [|c prompt];
    [injection H as <-; exists []; now rewrite app_nil_r; auto|].
  cbn [truthy] in H. unfold mbind in H.
  destruct (App.vector_search e (c :: prompt)
              (Some (App.slider 1 8 4 handle)) tr) as [[hits|x] tr'];
    [|discriminate].
  destruct (App.answer_with_gpt4o e (c :: prompt) hits tr')
    as [[answer|x] tr'']; [|discriminate].
  injection H as <-. exists [(c :: prompt, answer)].
  split; [reflexivity|]. right. repeat split; [discriminate|eauto].
Qed.

Lemma app_history_append_only_witness :
  exists added,
    [(lit "Hello?", lit "Hi.");
     (lit "How do I change the oil?", lit "1. Drain the oil. 2. Refill.")]
    = [(lit "Hello?", lit "Hi.")] ++ added
    /\ (added = []
        \/ true = true /\ lit "How do I change the oil?" <> []
           /\ exists answer,
                added = [(lit "How do I change the oil?", answer)]).
Proof.
  apply (app_history_append_only (Sample.deployment Sample.hits) None
           (lit "How do I change the oil?") true
           (Some [(lit "Hello?", lit "Hi.")]) []).
  reflexivity.
Defined.

(** The calls of a run follow one order: the embedding of the question,
    then the search request, then the completion request.  A run makes
    a prefix of that sequence: never a search without an embedding,
    never a completion without a search, never a call twice. *)
Theorem app_call_order :
  forall (e : env) (handle : option Z) (prompt : str) (ask : bool)
         (history : option (list (str * str))) (tr : list event),
    exists r n body user,
      App.app e handle prompt ask history tr
      = (r,
         tr ++ firstn n
                 [EmbeddingsCreate (EMBED_MODEL e) [prompt];
                  RequestsPost (search_url e) body (search_headers e);
                  ChatCompletionsCreate (CHAT_MODEL e)
                    [App.system_message; user]
                    App.temperature App.max_tokens]).
Proof.
  intros e handle prompt ask history tr.
  set (old := match history with Some h => h | None => [] end).
  assert (Hidle : exists r n body user,
             (Ok old, tr)
             = (r : result (list (str * str)),
                tr ++ firstn n
                        [EmbeddingsCreate (EMBED_MODEL e) [prompt];
                         RequestsPost (search_url e) body (search_headers e);
                         ChatCompletionsCreate (CHAT_MODEL e)
                           [App.system_message; user]
                           App.temperature App.max_tokens])).
  { exists (Ok old), 0%nat, JNull, App.system_message.
    cbn [firstn]. now rewrite app_nil_r. }
  unfold App.app. fold old.
  destruct ask; [|exact Hidle].
  destruct prompt as [|c prompt]; [exact Hidle|]. clear Hidle.
  cbn [truthy]. unfold mbind at 1.
  destruct (embeddings_create e (EMBED_MODEL e) [(c :: prompt : str)])
    as [emb|x] eqn:Hemb.
  - pose proof (app_vector_search_calls e (c :: prompt)
                  (Some (App.slider 1 8 4 handle)) emb tr Hemb) as Hcalls.
    destruct (App.vector_search e (c :: prompt)
                (Some (App.slider 1 8 4 handle)) tr) as [[hits|x] tr'];
      cbn [snd] in Hcalls; subst tr'.
    + unfold mbind at 1.
      match goal with
      | |- context [App.answer_with_gpt4o e ?q hits ?t] =>
          destruct (answer_trace e q hits t) as [r [out [Hans Hout]]]
      end.
      rewrite Hans.
      destruct Hout as [-> | [user ->]].
      * exists (match r with
                | Ok a => Ok (old ++ [(c :: prompt, a)])
                | Raise x => Raise x
                end), 2%nat,
          (App.search_body emb (App.slider 1 8 4 handle)),
          App.system_message.
        cbn [firstn arg_or]. rewrite app_nil_r. now destruct r.
      * exists (match r with
                | Ok a => Ok (old ++ [(c :: prompt, a)])
                | Raise x => Raise x
                end), 3%nat,
          (App.search_body emb (App.slider 1 8 4 handle)), user.
        cbn [firstn arg_or]. rewrite <- app_assoc. now destruct r.
    + exists (Raise x), 2%nat,
        (App.search_body emb (App.slider 1 8 4 handle)), App.system_message.
      reflexivity.
  - exists (Raise x), 1%nat, JNull, App.system_message.
    unfold App.vector_search, mbind, call. now rewrite Hemb.
Qed.

End AppRuns.

(* ================================================================== *)
(** * Further properties of vector_searchrest.py *)

Section RestRuns.

Import Notions.

Lemma print_hit_string :
  forall (fs : list (str * json)) (i : json) (s : str) (tr : list event),
    dict_lookup (lit "id") fs = Some i ->
    dict_lookup (lit "content") fs = Some (JStr s) ->
    SearchRest.print_hit (JObj fs) tr = (Ok tt, tr ++ hit_lines (i, s)).
Proof.
  intros fs i s tr Hid Hcontent.
  unfold SearchRest.print_hit, mbind, lift, call, Py.getitem.
  rewrite Hid, Hcontent. cbn [Py.replace_newlines].
  rewrite <- app_assoc. reflexivity.
Qed.

Lemma forM_print_hits :
  forall (hits : list (json * str)) (elems : list json) (tr : list event),
    Forall2 Design.is_hit_of elems
      (map (fun h => (fst h, JStr (snd h))) hits) ->
    forM_ SearchRest.print_hit elems tr
    = (Ok tt, tr ++ flat_map hit_lines hits).
Proof.
  induction hits as [|[i s] hits IH]; intros elems tr H;
    inversion H as [|h p elems' ps Hh Hrest]; subst.
  - simpl. unfold ret. now rewrite app_nil_r.
  - destruct Hh as [fs [-> [Hid Hcontent]]]. cbn [fst snd] in Hid, Hcontent.
    cbn [forM_]. unfold mbind.
    rewrite (print_hit_string fs i s tr Hid Hcontent).
    rewrite (IH elems' _ Hrest). cbn [flat_map].
    now rewrite <- app_assoc.
Qed.

(** What the script does once the embedding, the request and the
    decoding of a JSON object with a [value] array have gone through. *)
Lemma rest_vector_search_run :
  forall (e : env) (query : str) (k_arg : option Z) (emb : list float)
         (resp : response) (fields : list (str * json))
         (elems : list json) (tr : list event),
    embeddings_create e (EMBED_MODEL e) [query] = Ok emb ->
    requests_post e (search_url e)
      (SearchRest.search_payload emb
         (arg_or k_arg SearchRest.vector_search_k_default))
      (search_headers e) = Ok resp ->
    (status_code resp < 400)%Z ->
    json_body resp = Ok (JObj fields) ->
    dict_lookup (lit "value") fields = Some (JArr elems) ->
    SearchRest.vector_search e query k_arg tr
    = forM_ SearchRest.print_hit elems
        (tr ++ [EmbeddingsCreate (EMBED_MODEL e) [query];
                RequestsPost (search_url e)
                  (SearchRest.search_payload emb
                     (arg_or k_arg SearchRest.vector_search_k_default))
                  (search_headers e)]).
Proof.
  intros e query k_arg emb resp fields elems tr
         Hemb Hpost Hstatus Hjson Hvalue.
  unfold SearchRest.vector_search, mbind, call, lift.
  rewrite Hemb, Hpost, (status_below_400_passes resp Hstatus), Hjson.
  unfold Py.get. rewrite Hvalue. cbn [Py.len Py.iter].
  now rewrite <- app_assoc.
Qed.

(** On a successful response with well-formed hits, the script prints
    two lines per hit, in response order: the id, then the snippet of
    the content. *)
Theorem rest_prints_hits_in_order :
  forall (e : env) (query : str) (k : Z) (emb : list float)
         (resp : response) (fields : list (str * json))
         (elems : list json) (hits : list (json * str)) (tr : list event),
    embeddings_create e (EMBED_MODEL e) [query] = Ok emb ->
    requests_post e (search_url e) (SearchRest.search_payload emb k)
      (search_headers e) = Ok resp ->
    (status_code resp < 400)%Z ->
    json_body resp = Ok (JObj fields) ->
    dict_lookup (lit "value") fields = Some (JArr elems) ->
    Forall2 Design.is_hit_of elems
      (map (fun h => (fst h, JStr (snd h))) hits) ->
    SearchRest.vector_search e query (Some k) tr
    = (Ok tt,
       tr ++ [EmbeddingsCreate (EMBED_MODEL e) [query];
              RequestsPost (search_url e) (SearchRest.search_payload emb k)
                (search_headers e)]
          ++ flat_map hit_lines hits).
Proof.
  intros e query k emb resp fields elems hits tr
         Hemb Hpost Hstatus Hjson Hvalue Hwf.
  rewrite (rest_vector_search_run e query (Some k) emb resp fields elems tr
             Hemb Hpost Hstatus Hjson Hvalue).
  rewrite (forM_print_hits hits elems _ Hwf).
  now rewrite <- app_assoc.
Qed.

Lemma rest_prints_hits_in_order_witness :
  SearchRest.vector_search (Sample.deployment Sample.hits)
    (lit "How do I change the oil?") (Some 5%Z) []
  = (Ok tt,
     [EmbeddingsCreate (lit "embed") [lit "How do I change the oil?"];
      RequestsPost (search_url (Sample.deployment Sample.hits))
        (SearchRest.search_payload [0.5%float; 0.25%float] 5)
        (search_headers (Sample.deployment Sample.hits));
      Print [PText (lit "- "); PValue (JStr (lit "oil-change_chunk_0"));
             PText (lit ":")];
      Print [PText (lit "    Drain the oil." ++ [8230%N] ++ NL)];
      Print [PText (lit "- "); PValue (JStr (lit "oil-change_chunk_1"));
             PText (lit ":")];
      Print [PText (lit "    Refill." ++ [8230%N] ++ NL)]]).
Proof.
  apply (rest_prints_hits_in_order (Sample.deployment Sample.hits)
           (lit "How do I change the oil?") 5 [0.5%float; 0.25%float]
           {| status_code := 200; json_body := Ok Sample.hits |}
           [(lit "@odata.context", JStr (lit "https://search/$metadata"));
            (lit "value",
             JArr [JObj [(lit "@search.score", JFloat 0.5%float);
                         (lit "id", JStr (lit "oil-change_chunk_0"));
                         (lit "content", JStr (lit "Drain the oil."))];
                   JObj [(lit "id", JStr (lit "oil-change_chunk_1"));
                         (lit "content", JStr (lit "Refill."))]])]
           [JObj [(lit "@search.score", JFloat 0.5%float);
                  (lit "id", JStr (lit "oil-change_chunk_0"));
                  (lit "content", JStr (lit "Drain the oil."))];
            JObj [(lit "id", JStr (lit "oil-change_chunk_1"));
                  (lit "content", JStr (lit "Refill."))]]
           [(JStr (lit "oil-change_chunk_0"), lit "Drain the oil.");
            (JStr (lit "oil-change_chunk_1"), lit "Refill.")] []).
  - reflexivity.
  - reflexivity.
  - simpl. lia.
  - reflexivity.
  - reflexivity.
  - repeat (constructor; [eexists; repeat split; reflexivity|]).
    constructor.
Defined.

Lemma in_firstn :
  forall (A : Type) (n : nat) (l : list A) (x : A),
    In x (firstn n l) -> In x l.
Proof.
  intros A n l x H. rewrite <- (firstn_skipn n l).
  apply in_or_app. now left.
Qed.

Lemma snippet_spec :
  forall s : str,
    (List.length (snippet s) <= 200)%nat
    /\ ~ In 10%N (snippet s)
    /\ ((List.length s <= 200)%nat -> ~ In 10%N s -> snippet s = s).
Proof.
  intros s. unfold snippet. split; [apply firstn_le_length|]. split.
  - intros Hin. apply in_firstn in Hin.
    apply in_map_iff in Hin as [c [Hc _]].
    destruct (N.eqb c 10) eqn:E; [discriminate|].
    apply N.eqb_neq in E. congruence.
  - intros Hlen Hnl. rewrite firstn_all2 by (now rewrite length_map).
    rewrite <- (map_id s) at 2. apply map_ext_in.
    intros c Hc. destruct (N.eqb c 10) eqn:E; [|reflexivity].
    apply N.eqb_eq in E. subst. contradiction.
Qed.

(** The text printed for a hit with a string content is the first 200
    characters of the content with every newline replaced by a space:
    place [n] of it, for [n] below 200, holds the character at place
    [n] of the content, or a space where that is a newline.  So it is
    one line of at most 200 characters, and a content of at most 200
    characters without newline is printed as it is. *)
Theorem rest_snippet_is_one_short_line :
  forall (fs : list (str * json)) (i : json) (s : str) (tr : list event),
    dict_lookup (lit "id") fs = Some i ->
    dict_lookup (lit "content") fs = Some (JStr s) ->
    exists shown,
      SearchRest.print_hit (JObj fs) tr
      = (Ok tt,
         tr ++ [Print [PText (lit "- "); PValue i; PText (lit ":")];
                Print [PText (lit "    " ++ shown ++ [8230%N] ++ NL)]])
      /\ shown = firstn 200 (map (fun c => if N.eqb c 10 then 32%N else c) s)
      /\ List.length shown = Nat.min 200 (List.length s)
      /\ (forall n c,
            (n < 200)%nat -> nth_error s n = Some c ->
            nth_error shown n = Some (if N.eqb c 10 then 32%N else c))
      /\ (List.length shown <= 200)%nat
      /\ ~ In 10%N shown
      /\ ((List.length s <= 200)%nat -> ~ In 10%N s -> shown = s).
Proof.
  intros fs i s tr Hid Hcontent. exists (snippet s). split.
  - apply (print_hit_string fs i s tr Hid Hcontent).
  - split; [reflexivity|]. split; [|split].
    + unfold snippet. now rewrite length_firstn, length_map.
    + intros n c Hn Hc. unfold snippet. rewrite nth_error_firstn.
      replace (n <? 200)%nat with true by (symmetry; now apply Nat.ltb_lt).
      exact (map_nth_error (fun c0 => if N.eqb c0 10 then 32%N else c0)
               n s Hc).
    + apply snippet_spec.
Qed.

Lemma rest_snippet_is_one_short_line_witness :
  exists shown,
    SearchRest.print_hit
      (JObj [(lit "id", JStr (lit "oil-change_chunk_0"));
             (lit "content", JStr (lit "Drain" ++ NL ++ lit "the oil."))]) []
    = (Ok tt,
       [] ++ [Print [PText (lit "- ");
                     PValue (JStr (lit "oil-change_chunk_0"));
                     PText (lit ":")];
              Print [PText (lit "    " ++ shown ++ [8230%N] ++ NL)]])
    /\ shown = lit "Drain the oil.".
Proof.
  destruct (rest_snippet_is_one_short_line
              [(lit "id", JStr (lit "oil-change_chunk_0"));
               (lit "content", JStr (lit "Drain" ++ NL ++ lit "the oil."))]
              (JStr (lit "oil-change_chunk_0"))
              (lit "Drain" ++ NL ++ lit "the oil.") [] eq_refl eq_refl)
    as [shown [Hrun [Hshown _]]].
  exists shown. split; [exact Hrun | exact Hshown].
Defined.

(** A response with a 4xx or 5xx status makes the script raise
    [HTTPError] right after the request: nothing is printed. *)
Theorem rest_http_error_prints_nothing :
  forall (e : env) (query : str) (k_arg : option Z) (emb : list float)
         (resp : response) (tr : list event),
    embeddings_create e (EMBED_MODEL e) [query] = Ok emb ->
    requests_post e (search_url e)
      (SearchRest.search_payload emb
         (arg_or k_arg SearchRest.vector_search_k_default))
      (search_headers e) = Ok resp ->
    (400 <= status_code resp < 600)%Z ->
    SearchRest.vector_search e query k_arg tr
    = (Raise (HTTPError (status_code resp)),
       tr ++ [EmbeddingsCreate (EMBED_MODEL e) [query];
              RequestsPost (search_url e)
                (SearchRest.search_payload emb
                   (arg_or k_arg SearchRest.vector_search_k_default))
                (search_headers e)]).
Proof.
  intros e query k_arg emb resp tr Hemb Hpost Hstatus.
  unfold SearchRest.vector_search, mbind, call, lift.
  rewrite Hemb, Hpost. unfold raise_for_status.
  replace (400 <=? status_code resp)%Z with true
    by (symmetry; apply Z.leb_le; lia).
  replace (status_code resp <? 600)%Z with true
    by (symmetry; apply Z.ltb_lt; lia).
  cbn [andb]. now rewrite <- app_assoc.
Qed.

Lemma rest_http_error_prints_nothing_witness :
  SearchRest.vector_search (SampleFaults.with_status 404 Sample.hits)
    (lit "How do I change the oil?") None []
  = (Raise (HTTPError 404),
     [EmbeddingsCreate (lit "embed") [lit "How do I change the oil?"];
      RequestsPost (search_url (SampleFaults.with_status 404 Sample.hits))
        (SearchRest.search_payload [0.5%float; 0.25%float] 5)
        (search_headers (SampleFaults.with_status 404 Sample.hits))]).
Proof.
  apply (rest_http_error_prints_nothing
           (SampleFaults.with_status 404 Sample.hits)
           (lit "How do I change the oil?") None [0.5%float; 0.25%float]
           {| status_code := 404; json_body := Ok Sample.hits |} []
           eq_refl eq_refl).
  simpl. lia.
Defined.

Lemma forM_print_hits_then_raise :
  forall (hits : list (json * str)) (good : list json) (bad : json)
         (rest : list json) (x : exn) (out : list event) (tr : list event),
    Forall2 Design.is_hit_of good
      (map (fun h => (fst h, JStr (snd h))) hits) ->
    (forall t, SearchRest.print_hit bad t = (Raise x, t ++ out)) ->
    forM_ SearchRest.print_hit (good ++ bad :: rest) tr
    = (Raise x, tr ++ flat_map hit_lines hits ++ out).
Proof.
  induction hits as [|[i s] hits IH]; intros good bad rest x out tr H Hbad;
    inversion H as [|h p good' ps Hh Hrest]; subst.
  - change ([] ++ bad :: rest) with (bad :: rest).
    cbn [forM_ flat_map]. unfold mbind. now rewrite Hbad.
  - destruct Hh as [fs [-> [Hid Hcontent]]]. cbn [fst snd] in Hid, Hcontent.
    change ((JObj fs :: good') ++ bad :: rest)
      with (JObj fs :: (good' ++ bad :: rest)).
    cbn [forM_]. unfold mbind.
    rewrite (print_hit_string fs i s tr Hid Hcontent).
    rewrite (IH good' bad rest x out _ Hrest Hbad). cbn [flat_map].
    now rewrite <- !app_assoc.
Qed.

(** A hit that has an [id] but no [content] stops the script with
    [KeyError] after its id line is out: the hits before it are printed
    in full, the faulty one by its id only, the later ones not at
    all. *)
Theorem rest_prints_id_before_missing_content :
  forall (e : env) (query : str) (k : Z) (emb : list float)
         (resp : response) (fields : list (str * json))
         (good : list json) (hits : list (json * str))
         (fs : list (str * json)) (i : json) (rest : list json)
         (tr : list event),
    embeddings_create e (EMBED_MODEL e) [query] = Ok emb ->
    requests_post e (search_url e) (SearchRest.search_payload emb k)
      (search_headers e) = Ok resp ->
    (status_code resp < 400)%Z ->
    json_body resp = Ok (JObj fields) ->
    dict_lookup (lit "value") fields = Some (JArr (good ++ JObj fs :: rest)) ->
    Forall2 Design.is_hit_of good
      (map (fun h => (fst h, JStr (snd h))) hits) ->
    dict_lookup (lit "id") fs = Some i ->
    dict_lookup (lit "content") fs = None ->
    SearchRest.vector_search e query (Some k) tr
    = (Raise (KeyError (lit "content")),
       tr ++ [EmbeddingsCreate (EMBED_MODEL e) [query];
              RequestsPost (search_url e) (SearchRest.search_payload emb k)
                (search_headers e)]
          ++ flat_map hit_lines hits ++ [id_line i]).
Proof.
  intros e query k emb resp fields good hits fs i rest tr
         Hemb Hpost Hstatus Hjson Hvalue Hwf Hid Hcontent.
  rewrite (rest_vector_search_run e query (Some k) emb resp fields _ tr
             Hemb Hpost Hstatus Hjson Hvalue).
  rewrite (forM_print_hits_then_raise hits good (JObj fs) rest
             (KeyError (lit "content")) [id_line i] _ Hwf).
  - now rewrite <- !app_assoc.
  - intros t. unfold SearchRest.print_hit, mbind, lift, call, Py.getitem.
    now rewrite Hid, Hcontent.
Qed.

Lemma rest_prints_id_before_missing_content_witness :
  SearchRest.vector_search
    (SampleFaults.with_status 200
       (JObj SampleFaults.second_hit_without_content))
    (lit "How do I change the oil?") (Some 5%Z) []
  = (Raise (KeyError (lit "content")),
     [EmbeddingsCreate (lit "embed") [lit "How do I change the oil?"];
      RequestsPost
        (search_url (SampleFaults.with_status 200
                       (JObj SampleFaults.second_hit_without_content)))
        (SearchRest.search_payload [0.5%float; 0.25%float] 5)
        (search_headers (SampleFaults.with_status 200
                           (JObj SampleFaults.second_hit_without_content)));
      Print [PText (lit "- "); PValue (JStr (lit "oil-change_chunk_0"));
             PText (lit ":")];
      Print [PText (lit "    Drain the oil." ++ [8230%N] ++ NL)];
      Print [PText (lit "- "); PValue (JStr (lit "oil-change_chunk_1"));
             PText (lit ":")]]).
Proof.
  apply (rest_prints_id_before_missing_content
           (SampleFaults.with_status 200
              (JObj SampleFaults.second_hit_without_content))
           (lit "How do I change the oil?") 5 [0.5%float; 0.25%float]
           {| status_code := 200;
              json_body := Ok (JObj SampleFaults.second_hit_without_content) |}
           SampleFaults.second_hit_without_content
           [JObj [(lit "id", JStr (lit "oil-change_chunk_0"));
                  (lit "content", JStr (lit "Drain the oil."))]]
           [(JStr (lit "oil-change_chunk_0"), lit "Drain the oil.")]
           [(lit "id", JStr (lit "oil-change_chunk_1"))]
           (JStr (lit "oil-change_chunk_1")) [] []).
  - reflexivity.
  - reflexivity.
  - simpl. lia.
  - reflexivity.
  - reflexivity.
  - repeat (constructor; [eexists; repeat split; reflexivity|]).
    constructor.
  - reflexivity.
  - reflexivity.
Defined.

End RestRuns.

(* ================================================================== *)
(** * Further properties of the start-up *)

Section StartupChecks.

Import IngestStartup.

Lemma missing_false_iff :
  forall val : option str,
    missing val = false <-> exists v, val = Some v /\ v <> [].
Proof.
  intros [[|c v]|]; simpl; split; intros H; try discriminate.
  - destruct H as [v [Hv Hne]]. injection Hv as <-. contradiction.
  - exists (c :: v). split; [reflexivity | discriminate].
  - reflexivity.
  - destruct H as [v [Hv _]]. discriminate.
Qed.

Lemma validate_loop_proceeds :
  forall (getenv : str -> option str) (names : list str),
    validate_loop getenv names = Proceed
    <-> forall name, In name names -> missing (getenv name) = false.
Proof.
  intros getenv. induction names as [|n names IH]; simpl.
  - split; [intros _ name [] | reflexivity].
  - destruct (missing (getenv n)) eqn:E.
    + split; [discriminate|]. intros H.
      rewrite (H n (or_introl eq_refl)) in E. discriminate.
    + rewrite IH. split.
      * intros H name [<-|Hin]; [exact E | now apply H].
      * intros H name Hin. apply H. now right.
Qed.

(** The ingestion goes on to its main flow exactly when each of the
    seven required settings is present and not empty. *)
Theorem validate_proceeds_iff :
  forall getenv : str -> option str,
    validate getenv = Proceed
    <-> forall name,
          In name required -> exists v, getenv name = Some v /\ v <> [].
Proof.
  intros getenv. unfold validate. rewrite validate_loop_proceeds.
  split; intros H name Hin; apply missing_false_iff; now apply H.
Qed.

Lemma validate_loop_first_missing :
  forall (getenv : str -> option str) (before : list str) (name : str)
         (after : list str),
    (forall n, In n before -> missing (getenv n) = false) ->
    missing (getenv name) = true ->
    validate_loop getenv (before ++ name :: after)
    = Exit 1 (lit "Missing required .env variable: " ++ name).
Proof.
  intros getenv. induction before as [|n before IH];
    intros name after Hbefore Hmissing; simpl.
  - now rewrite Hmissing.
  - rewrite (Hbefore n (or_introl eq_refl)). apply IH; [|exact Hmissing].
    intros m Hm. apply Hbefore. now right.
Qed.

(** When a required setting is absent or empty, the ingestion exits
    with status 1 before any work, and the error it logs names the
    first such setting in the order of the check. *)
Theorem validate_reports_first_missing :
  forall (getenv : str -> option str) (before : list str) (name : str)
         (after : list str),
    required = before ++ name :: after ->
    (forall n, In n before -> missing (getenv n) = false) ->
    missing (getenv name) = true ->
    validate getenv
    = Exit 1 (lit "Missing required .env variable: " ++ name).
Proof.
  intros getenv before name after Hsplit Hbefore Hmissing.
  unfold validate. rewrite Hsplit.
  now apply validate_loop_first_missing.
Qed.

Lemma validate_reports_first_missing_witness :
  validate SampleEnv.without_account_url
  = Exit 1 (lit "Missing required .env variable: BLOB_ACCOUNT_URL").
Proof.
  apply (validate_reports_first_missing SampleEnv.without_account_url
           [lit "AZURE_SEARCH_ENDPOINT"; lit "AZURE_SEARCH_INDEX";
            lit "AZURE_SEARCH_API_KEY"]
           (lit "BLOB_ACCOUNT_URL")
           [lit "BLOB_CONTAINER_NAME"; lit "BLOB_ACCOUNT_KEY";
            lit "AZURE_EMBED_DEPLOYMENT"]).
  - reflexivity.
  - intros n [<-|[<-|[<-|[]]]]; reflexivity.
  - reflexivity.
Defined.

End StartupChecks.

Section AppSettingsFacts.

Import AppSettings.

Lemma drop_while_spec :
  forall (f : char -> bool) (s : str),
    exists dropped,
      s = dropped ++ drop_while f s
      /\ Forall (fun c => f c = true) dropped
      /\ match drop_while f s with
         | [] => True
         | c :: _ => f c = false
         end.
Proof.
  intros f. induction s as [|c s IH].
  - exists []. repeat split. constructor.
  - cbn [drop_while]. destruct (f c) eqn:E.
    + destruct IH as [dropped [Hs [Hall Hhead]]].
      exists (c :: dropped). split; [simpl; f_equal; exact Hs|].
      split; [now constructor | exact Hhead].
    + exists []. split; [reflexivity|]. split; [constructor | exact E].
Qed.

Lemma rstrip_slash_spec :
  forall s : str,
    exists trailing,
      s = rstrip s (lit "/") ++ trailing
      /\ Forall (fun c => c = ch "/") trailing
      /\ ~ (exists b, rstrip s (lit "/") = b ++ [ch "/"]).
Proof.
  intros s. unfold rstrip.
  destruct (drop_while_spec (fun c => existsb (N.eqb c) (lit "/"))
              (List.rev s)) as [dropped [Hs [Hall Hhead]]].
  exists (List.rev dropped). split; [|split].
  - rewrite <- rev_app_distr, <- Hs. now rewrite rev_involutive.
  - apply Forall_rev. eapply Forall_impl; [|exact Hall].
    intros c Hc. cbn [existsb lit] in Hc. rewrite orb_false_r in Hc.
    now apply N.eqb_eq in Hc.
  - intros [b Hb].
    apply (f_equal (@List.rev char)) in Hb.
    rewrite rev_involutive, rev_app_distr in Hb. cbn [List.rev app] in Hb.
    rewrite Hb in Hhead. vm_compute in Hhead. discriminate.
Qed.

(** The search URL of app.py never has a slash doubled before
    [indexes]: the endpoint is used without its trailing slashes, and
    nothing else of it is removed.  An unset variable counts as the
    empty string and start-up goes on. *)
Theorem app_search_url_endpoint :
  forall (getenv : str -> option str) (services : env),
    exists base trailing,
      getenv_or getenv (lit "AZURE_SEARCH_ENDPOINT") [] = base ++ trailing
      /\ Forall (fun c => c = ch "/") trailing
      /\ ~ (exists b, base = b ++ [ch "/"])
      /\ search_url (configure getenv services)
         = base ++ lit "/indexes/"
           ++ getenv_or getenv (lit "AZURE_SEARCH_INDEX") []
           ++ lit "/docs/search?api-version=2023-11-01".
Proof.
  intros getenv services.
  destruct (rstrip_slash_spec
              (getenv_or getenv (lit "AZURE_SEARCH_ENDPOINT") []))
    as [trailing [Hraw [Htrail Hbase]]].
  exists (rstrip (getenv_or getenv (lit "AZURE_SEARCH_ENDPOINT") [])
            (lit "/")), trailing.
  repeat split; auto.
Qed.

Example app_search_url_sample :
  search_url (configure SampleEnv.trailing_slashes
                (Sample.deployment Sample.hits))
  = lit "https://search/indexes/manuals/docs/search?api-version=2023-11-01".
Proof. reflexivity. Qed.

Example app_search_url_unset :
  search_url (configure (fun _ => None) (Sample.deployment Sample.hits))
  = lit "/indexes//docs/search?api-version=2023-11-01".
Proof. reflexivity. Qed.

End AppSettingsFacts.

Section AccountName.

Import IngestStartup Notions.

Lemma split_aux_nonempty :
  forall (sep s : str) (skip : nat) (cur : str), split_aux sep s skip cur <> [].
Proof.
  intros sep. induction s as [|c s IH]; intros skip cur; cbn [split_aux].
  - discriminate.
  - destruct skip; [|apply IH].
    destruct (startswith (c :: s) sep); [discriminate | apply IH].
Qed.

Lemma split_aux_without :
  forall (sep s cur : str),
    occurs sep s = false -> split_aux sep s 0 cur = [List.rev cur ++ s].
Proof.
  intros sep. induction s as [|c s IH]; intros cur H; cbn [split_aux].
  - now rewrite app_nil_r.
  - cbn [occurs] in H. apply orb_false_iff in H as [Hhere Hlater].
    rewrite Hhere, (IH (c :: cur) Hlater). cbn [List.rev].
    now rewrite <- app_assoc.
Qed.

Lemma split_aux_with :
  forall (sep0 : char) (sep' s cur : str),
    occurs (sep0 :: sep') s = true ->
    exists a b rest, split_aux (sep0 :: sep') s 0 cur = a :: b :: rest.
Proof.
  intros sep0 sep'. induction s as [|c s IH]; intros cur H.
  - discriminate.
  - cbn [split_aux]. cbn [occurs] in H.
    destruct (startswith (c :: s) (sep0 :: sep')) eqn:E.
    + destruct (split_aux (sep0 :: sep') s
                  (List.length (sep0 :: sep') - 1) []) as [|b rest] eqn:Et.
      * exfalso. eapply split_aux_nonempty. exact Et.
      * eauto.
    + cbn [orb] in H. apply IH. exact H.
Qed.

(** Reading the account name fails, with the [IndexError] of the second
    piece, exactly when the account URL holds no double slash. *)
Theorem account_name_fails_iff :
  forall url : str,
    account_name url = None <-> occurs (lit "//") url = false.
Proof.
  intros url. unfold account_name, split. split.
  - intros H. destruct (occurs (lit "//") url) eqn:E; [|reflexivity].
    exfalso.
    destruct (split_aux_with (ch "/") (lit "/") url [] E)
      as [a [b [rest Hsplit]]].
    change (lit "//") with (ch "/" :: lit "/") in H.
    rewrite Hsplit in H. cbn [nth_error] in H.
    destruct (split_aux (lit ".") b 0 []) as [|x xs] eqn:Eb;
      [|discriminate].
    eapply split_aux_nonempty. exact Eb.
  - intros H. now rewrite (split_aux_without (lit "//") url [] H).
Qed.

Lemma split_aux_pass :
  forall (sep0 : char) (sep' a s cur : str),
    ~ In sep0 a ->
    split_aux (sep0 :: sep') (a ++ s) 0 cur
    = split_aux (sep0 :: sep') s 0 (List.rev a ++ cur).
Proof.
  intros sep0 sep'. induction a as [|x a IH]; intros s cur H.
  - reflexivity.
  - change ((x :: a) ++ s) with (x :: (a ++ s)).
    cbn [split_aux startswith].
    replace (N.eqb x sep0) with false.
    + cbn [andb]. rewrite IH by (intros Hin; apply H; now right).
      cbn [List.rev]. now rewrite <- app_assoc.
    + symmetry. apply N.eqb_neq. intros ->. apply H. now left.
Qed.

Lemma split_aux_head :
  forall (sep s cur : str),
    exists piece tl, split_aux sep s 0 cur = (List.rev cur ++ piece) :: tl.
Proof.
  intros sep. induction s as [|c s IH]; intros cur; cbn [split_aux].
  - exists [], []. now rewrite app_nil_r.
  - destruct (startswith (c :: s) sep).
    + eexists [], _. now rewrite app_nil_r.
    + destruct (IH (c :: cur)) as [piece [tl Hs]].
      exists (c :: piece), tl. rewrite Hs. cbn [List.rev].
      now rewrite <- app_assoc.
Qed.

Lemma startswith_app :
  forall p X : str, startswith (p ++ X) p = true.
Proof.
  induction p as [|c p IH]; intros X.
  - destruct X; reflexivity.
  - change ((c :: p) ++ X) with (c :: (p ++ X)). cbn [startswith].
    now rewrite N.eqb_refl, IH.
Qed.

Lemma split_aux_skip :
  forall (sep a X cur : str),
    split_aux sep (a ++ X) (List.length a) cur = split_aux sep X 0 cur.
Proof.
  intros sep. induction a as [|x a IH]; intros X cur; [reflexivity|].
  change ((x :: a) ++ X) with (x :: (a ++ X)).
  change (List.length (x :: a)) with (S (List.length a)).
  cbn [split_aux]. apply IH.
Qed.

Lemma split_aux_at_sep :
  forall (c : char) (sep' X cur : str),
    split_aux (c :: sep') ((c :: sep') ++ X) 0 cur
    = List.rev cur :: split_aux (c :: sep') X 0 [].
Proof.
  intros c sep' X cur.
  pose proof (startswith_app (c :: sep') X) as Hstart.
  change ((c :: sep') ++ X) with (c :: (sep' ++ X)) in *.
  cbn [split_aux]. rewrite Hstart.
  replace (List.length (c :: sep') - 1)%nat with (List.length sep')
    by (cbn [List.length]; lia).
  now rewrite split_aux_skip.
Qed.

(** For an account URL of the usual shape, a scheme without slash, a
    double slash, then a host whose first label holds neither dot nor
    slash, the account name is that first label. *)
Theorem account_name_is_first_label :
  forall scheme label rest : str,
    ~ In (ch "/") scheme ->
    ~ In (ch "/") label ->
    ~ In (ch ".") label ->
    account_name (scheme ++ lit "//" ++ label ++ ch "." :: rest) = Some label.
Proof.
  intros scheme label rest Hscheme Hslash Hdot.
  assert (Hlabel : ~ In (ch "/") (label ++ [ch "."])).
  { intros Hin. apply in_app_iff in Hin. destruct Hin as [Hin|Hin];
      [now apply Hslash|].
    destruct Hin as [Hin|[]]. vm_compute in Hin. discriminate. }
  unfold account_name, split.
  change (lit "//") with (ch "/" :: lit "/").
  rewrite split_aux_pass by exact Hscheme.
  rewrite split_aux_at_sep.
  change (nth_error (?x :: ?l) 1) with (nth_error l 0).
  replace (label ++ ch "." :: rest) with ((label ++ [ch "."]) ++ rest)
    by (now rewrite <- app_assoc).
  rewrite split_aux_pass by exact Hlabel.
  destruct (split_aux_head (ch "/" :: lit "/") rest
              (List.rev (label ++ [ch "."]) ++ [])) as [piece [tl Hs]].
  rewrite Hs. cbn [nth_error].
  rewrite app_nil_r, rev_involutive, <- app_assoc.
  change (lit ".") with (ch "." :: []).
  rewrite split_aux_pass by exact Hdot.
  rewrite split_aux_at_sep. cbn [nth_error].
  now rewrite app_nil_r, rev_involutive.
Qed.

Lemma account_name_is_first_label_witness :
  account_name (lit "https:" ++ lit "//" ++ lit "acct"
                ++ ch "." :: lit "blob.core.windows.net")
  = Some (lit "acct").
Proof.
  apply (account_name_is_first_label (lit "https:") (lit "acct")
           (lit "blob.core.windows.net")).
  - vm_compute. intuition discriminate.
  - vm_compute. intuition discriminate.
  - vm_compute. intuition discriminate.
Defined.

Example account_name_samples :
  map account_name
    [lit "https://acct.blob.core.windows.net"; lit "a///b.c//d";
     lit "noslash"; lit "x//"; lit "a//b"]
  = [Some (lit "acct"); Some (lit "/b"); None; Some []; Some (lit "b")].
Proof. reflexivity. Qed.

End AccountName.

(* ================================================================== *)
(** * Further properties of the main flow of the ingestion *)

Section MainFlow.

Import Ingest IngestStartup Notions.

Lemma flat_map_map :
  forall (A B C : Type) (f : B -> list C) (g : A -> B) (l : list A),
    flat_map f (map g l) = flat_map (fun a => f (g a)) l.
Proof.
  intros A B C f g. induction l as [|a l IH]; simpl; [reflexivity|].
  now rewrite IH.
Qed.

Lemma fetch_documents_of_pages :
  forall (PdfReader : list Byte.byte -> result (list (option str)))
         (pages : blob -> list (option str)) (container : list blob),
    (forall b, In b container -> is_pdf b = true ->
               PdfReader (data b) = Ok (pages b)) ->
    fetch_and_extract_pdfs PdfReader container
    = Ok (map (fun b => {| doc_id := name b;
                           doc_text := pages_joined (pages b) |})
              (filter is_pdf container)).
Proof.
  intros PdfReader pages container H.
  unfold fetch_and_extract_pdfs. rewrite fetch_loop_mapM.
  rewrite (mapM_all_ok (extract_blob PdfReader)
             (fun b => {| doc_id := name b;
                          doc_text := pages_joined (pages b) |})).
  - reflexivity.
  - intros b Hb. apply filter_In in Hb as [Hin Hpdf].
    apply (extraction_joins_pages_aux PdfReader b (pages b)). now apply H.
Qed.

(** The whole ingestion, when nothing fails: every PDF blob of the
    container, in listing order, is extracted and cut into chunks, and
    one upload carries one record per chunk, keyed by the blob name
    without extension and the chunk index. *)
Theorem main_indexes_every_pdf :
  forall (PdfReader : list Byte.byte -> result (list (option str)))
         (split_text : str -> list str)
         (embeddings_create : str -> list str -> result (list float))
         (EMBED_MODEL : str)
         (upload_documents : list index_record -> result (list (str * bool)))
         (pages : blob -> list (option str)) (vec : str -> list float)
         (container : list blob),
    (forall b, In b container -> is_pdf b = true ->
               PdfReader (data b) = Ok (pages b)) ->
    (forall b chunk,
        In b container -> is_pdf b = true ->
        In chunk (split_text (pages_joined (pages b))) ->
        embeddings_create EMBED_MODEL [chunk] = Ok (vec chunk)) ->
    main PdfReader split_text embeddings_create EMBED_MODEL
      upload_documents container
    = upload_documents
        (flat_map
           (fun b =>
              records_of split_text vec
                {| doc_id := name b; doc_text := pages_joined (pages b) |})
           (filter is_pdf container)).
Proof.
  intros PdfReader split_text embeddings_create EMBED_MODEL upload_documents
         pages vec container Hread Hembed.
  unfold main.
  rewrite (fetch_documents_of_pages PdfReader pages container Hread).
  cbn [bind]. unfold chunk_and_index.
  rewrite (index_docs_ok split_text embeddings_create EMBED_MODEL vec).
  - cbn [bind app]. now rewrite flat_map_map.
  - intros doc chunk Hdoc Hchunk.
    apply in_map_iff in Hdoc as [b [<- Hb]].
    apply filter_In in Hb as [Hin Hpdf].
    apply (Hembed b chunk Hin Hpdf). exact Hchunk.
Qed.

Lemma main_indexes_every_pdf_witness :
  main sample_reader SampleIngest.split_text SampleIngest.embed (lit "embed")
    SampleIngest.upload SampleIngest.readable_container
  = Ok [(lit "oil-change_chunk_0", true); (lit "oil-change_chunk_1", true);
        (lit "Brakes_chunk_0", true); (lit "Brakes_chunk_1", true)].
Proof.
  apply (main_indexes_every_pdf sample_reader SampleIngest.split_text
           SampleIngest.embed (lit "embed") SampleIngest.upload
           (fun _ => [Some (lit "Drain the oil."); None; Some (lit "Refill.")])
           SampleIngest.vec SampleIngest.readable_container).
  - intros b [<-|[<-|[<-|[]]]] Hpdf; reflexivity.
  - intros b chunk Hb Hpdf [<-|[<-|[]]]; reflexivity.
Defined.

(** The whole ingestion, when one PDF cannot be read: the reader's
    exception ends the run before any chunk is embedded, and whatever
    the upload operation, nothing is uploaded, not even the documents
    listed before the unreadable one. *)
Theorem main_uploads_nothing_on_unreadable_pdf :
  forall (PdfReader : list Byte.byte -> result (list (option str)))
         (split_text : str -> list str)
         (embeddings_create : str -> list str -> result (list float))
         (EMBED_MODEL : str)
         (upload_documents : list index_record -> result (list (str * bool)))
         (before : list blob) (b : blob) (after : list blob) (e : exn),
    forallb (fun x => negb (is_pdf x) || readable PdfReader x) before = true ->
    is_pdf b = true ->
    PdfReader (data b) = Raise e ->
    main PdfReader split_text embeddings_create EMBED_MODEL
      upload_documents (before ++ b :: after)
    = Raise e.
Proof.
  intros PdfReader split_text embeddings_create EMBED_MODEL upload_documents
         before b after e Hbefore Hpdf Hbad.
  unfold main, fetch_and_extract_pdfs. rewrite fetch_loop_mapM.
  rewrite filter_app. cbn [filter]. rewrite Hpdf.
  rewrite (mapM_first_raise (extract_blob PdfReader) (filter is_pdf before)
             b (filter is_pdf after) e); [reflexivity| |].
  - intros x Hx. apply filter_In in Hx as [Hin Hx].
    rewrite forallb_forall in Hbefore. specialize (Hbefore x Hin).
    rewrite Hx in Hbefore. cbn [negb orb] in Hbefore.
    unfold readable in Hbefore. unfold extract_blob.
    destruct (PdfReader (data x)); [|discriminate]. cbn [bind]. eauto.
  - unfold extract_blob. now rewrite Hbad.
Qed.

Lemma main_uploads_nothing_on_unreadable_pdf_witness :
  main sample_reader SampleIngest.split_text SampleIngest.embed (lit "embed")
    SampleIngest.upload
    ([ {| name := lit "oil-change.pdf"; data := [x25; x50; x44; x46] |};
       {| name := lit "notes.txt"; data := [x68; x69] |} ]
     ++ {| name := lit "broken.pdf"; data := [] |}
     :: [ {| name := lit "Brakes.PDF"; data := [x25; x50; x44; x46] |} ])
  = Raise PdfReadError.
Proof.
  apply (main_uploads_nothing_on_unreadable_pdf sample_reader
           SampleIngest.split_text SampleIngest.embed (lit "embed")
           SampleIngest.upload
           [ {| name := lit "oil-change.pdf"; data := [x25; x50; x44; x46] |};
             {| name := lit "notes.txt"; data := [x68; x69] |} ]
           {| name := lit "broken.pdf"; data := [] |}
           [ {| name := lit "Brakes.PDF"; data := [x25; x50; x44; x46] |} ]
           PdfReadError); reflexivity.
Defined.

End MainFlow.
